(** * libguestfs daemon: ext2 administration and generic mkfs wrappers

    A shallow embedding of [daemon/ext2.c] and [daemon/mkfs.c].

    The daemon's functions are glue around external tools.  What they
    compute themselves is text scanning over the captured output of
    [tune2fs -l] (done in place, on the NUL-terminated buffer that
    [command] hands back) and the assembly of an argument vector for
    [mkfs].  The embedding keeps both as the C code has them: the output
    buffer is a list of characters addressed by offsets, scanned by models
    of the libc string functions and overwritten by stores; the argument
    vector is a fixed array of [MAX_ARGS] slots filled through a cursor.
    Calls to collaborators ([command], [commandv], [access],
    [do_blockdev_getss]) are answered by a [world]; where a property is
    about which calls a function makes, the calls and the errors replied
    are recorded, in order, in a trace of events. *)

From Stdlib Require Import ZArith String Ascii List Numbers.DecimalString.
From stdpp Require Import base tactics option list strings.

Local Open Scope Z_scope.
Local Open Scope nat_scope.
Local Open Scope bool_scope.
Local Open Scope list_scope.

(** ** Characters *)

Definition NUL : ascii := "000"%char.
Definition LF : ascii := "010"%char.
Definition HT : ascii := "009"%char.
Definition VT : ascii := "011"%char.
Definition FF : ascii := "012"%char.
Definition CR : ascii := "013"%char.

(** The contents of a C string, without its terminating NUL. *)
Abbreviation cstring := (list ascii).

(** A string literal of the source, as the characters it holds. *)
Definition lit (s : string) : cstring := list_ascii_of_string s.

(** Modelled from the spec: [c_isspace] of gnulib's [c-ctype.h], which is
    not under src/; the spec calls it "whitespace".  In the C locale that is
    space, tab, newline, vertical tab, form feed and carriage return. *)
Definition c_isspace (c : ascii) : bool :=
  Ascii.eqb c " " || Ascii.eqb c HT || Ascii.eqb c LF
  || Ascii.eqb c VT || Ascii.eqb c FF || Ascii.eqb c CR.

(** Modelled from the spec: [c_isxdigit] of gnulib's [c-ctype.h], which is
    not under src/; the spec calls it "hex digit": [0-9], [a-f], [A-F]. *)
Definition c_isxdigit (c : ascii) : bool :=
  let n := nat_of_ascii c in
  ((48 <=? n) && (n <=? 57)) || ((97 <=? n) && (n <=? 102))
  || ((65 <=? n) && (n <=? 70)).

(** ** C strings inside a buffer *)

Module CString.

(** A heap block as the characters it holds, and a [char *] into it as
    an offset from its start. *)
Abbreviation buffer := (list ascii).
Abbreviation ptr := nat.

(** [*p].  Every scan below stops at the terminating NUL, so no load
    falls outside the block. *)
Definition load (m : buffer) (p : ptr) : ascii := default NUL (m !! p).

(** [*p = c] *)
Definition store (m : buffer) (p : ptr) (c : ascii) : buffer := <[p := c]> m.

Definition is_nul (c : ascii) : bool := Ascii.eqb c NUL.

(** The number of characters in front of the first one at which [stop]
    holds: the trip count of [while (!stop ( *p)) p++]. *)
Fixpoint scan (stop : ascii → bool) (s : list ascii) : nat :=
  match s with
  | [] => 0
  | c :: s' => if stop c then 0 else S (scan stop s')
  end.

(** [strlen (p)] *)
Definition strlen (m : buffer) (p : ptr) : nat := scan is_nul (drop p m).

(** The C string that starts at [p]: what [strdup (p)] copies. *)
Definition cstr (m : buffer) (p : ptr) : cstring := take (strlen m p) (drop p m).

(** [strchrnul (p, c)]: the first [c] at or after [p], or else the
    terminating NUL. *)
Definition strchrnul (m : buffer) (p : ptr) (c : ascii) : ptr :=
  p + scan (λ x, Ascii.eqb x c || is_nul x) (drop p m).

(** [strchr (p, c)]: the first [c] at or after [p], or NULL. *)
Definition strchr (m : buffer) (p : ptr) (c : ascii) : option ptr :=
  let q := strchrnul m p c in
  if Ascii.eqb (load m q) c then Some q else None.

(** [while (keep ( *p)) p++;] where [keep] is false at NUL. *)
Definition skip_while (keep : ascii → bool) (m : buffer) (p : ptr) : ptr :=
  p + scan (λ x, negb (negb (is_nul x) && keep x)) (drop p m).

(** [strcmp (p, s) == 0] against a literal [s]. *)
Definition strcmp_eq (m : buffer) (p : ptr) (s : string) : bool :=
  bool_decide (cstr m p = lit s).

(** [strncmp (p, s, n) == 0] against a literal [s]: the two strings agree
    on their first [n] characters (or wholly, if shorter). *)
Definition strncmp_eq (m : buffer) (p : ptr) (s : string) (n : nat) : bool :=
  bool_decide (take n (cstr m p) = take n (lit s)).

(** Offset of the first occurrence of [needle] in [hay]. *)
Fixpoint find_sub (needle hay : list ascii) : option nat :=
  if bool_decide (needle `prefix_of` hay) then Some 0
  else match hay with
       | [] => None
       | _ :: hay' => S <$> find_sub needle hay'
       end.

(** [strstr (p, s)] for a literal [s]. *)
Definition strstr (m : buffer) (p : ptr) (s : string) : option ptr :=
  (λ k, p + k) <$> find_sub (lit s) (cstr m p).

End CString.

Import CString.

(** ** Collaborators

    The functions that the two files call and that are defined elsewhere
    in the daemon or in libc.  What they answer is a parameter. *)

(** What [command (&out, &err, ...)] and [commandv] hand back: the return
    code ([-1] on failure) and the captured stdout and stderr. *)
Record command_result := CommandResult {
  cmd_r : Z;
  cmd_out : list ascii;
  cmd_err : string;
}.

Record world := World {
  (** the external program run on an argument vector *)
  w_command : list string → command_result;
  (** [access (path, F_OK)]: [0] when the path exists *)
  w_access : string → Z;
  (** [do_blockdev_getss (device)]: the sector size, or [-1] after having
      replied with an error of its own *)
  w_blockdev_getss : string → Z;
}.

Inductive event :=
| EvCommand (argv : list string)
| EvBlockdevGetss (device : string)
| EvReplyError (msg : string).

(** ** daemon/ext2.c *)

Module Ext2.

(** What a [char **] or [char *] function of the daemon gives its caller:
    the value, or NULL after [reply_with_error]; [Diverged] is the model
    running out of fuel in a loop. *)
Inductive reply (A : Type) :=
| Ok (a : A)
| Error (msg : string)
| Diverged.
Arguments Ok {A} a.
Arguments Error {A} msg.
Arguments Diverged {A}.

(** Modelled from the spec: [add_string (&ret, &size, &alloc, s)] is
    defined outside src/; the spec has the list keep its pairs in insertion
    order, so it appends a copy of [s].  Its failure on memory exhaustion is
    left out. *)
Definition add_string (ret : list cstring) (s : cstring) : list cstring :=
  ret ++ [s].

(** Lines 71-104 of [do_tune2fs_l]: the non-blank line at [p] is split
    in place, and its key and value are appended to [ret]. *)
Definition tune2fs_split (m : buffer) (p : ptr) (ret : list cstring)
  : buffer * list cstring :=
  match strchr m p ":" with
  | Some colon =>
      let m := store m colon NUL in
      (* do { colon++; } while ( *colon && c_isspace ( *colon)); *)
      let colon := skip_while c_isspace m (S colon) in
      let ret := add_string ret (cstr m p) in
      if strcmp_eq m colon "<none>"
         || strcmp_eq m colon "<not available>"
         || strcmp_eq m colon "(none)"
      then (m, add_string ret [])
      else (m, add_string ret (cstr m colon))
  | None =>
      let ret := add_string ret (cstr m p) in
      (m, add_string ret [])
  end.

(** The [while ( *p)] loop of [do_tune2fs_l], lines 62-107. *)
Fixpoint tune2fs_loop (fuel : nat) (m : buffer) (p : ptr) (ret : list cstring)
  : option (list cstring) :=
  match fuel with
  | 0 => None
  | S fuel =>
      if is_nul (load m p) then Some ret
      else
        let pend := strchrnul m p LF in
        let '(m, pend) :=
          if Ascii.eqb (load m pend) LF then (store m pend NUL, S pend)
          else (m, pend) in
        if is_nul (load m p) then
          (* continue; with [p] where it was *)
          tune2fs_loop fuel m p ret
        else
          let '(m, ret) := tune2fs_split m p ret in
          (* p = pend; *)
          tune2fs_loop fuel m pend ret
  end.

(** [do_tune2fs_l], lines 30-115.  The result is the NULL-terminated
    array without its terminator: key, value, key, value, ...  The loop
    is given one round for each character of the buffer and one more; it
    needs fewer. *)
Definition do_tune2fs_l (w : world) (device : string) : reply (list cstring) :=
  let c := w_command w ["/sbin/tune2fs"; "-l"; device]%string in
  if (cmd_r c =? -1)%Z then Error ("tune2fs: " +:+ cmd_err c)
  else
    let m : buffer := cmd_out c ++ [NUL] in
    let p : ptr := 0 in
    let banner :=
      if strncmp_eq m p "tune2fs " 8 then
        match strchr m p LF with
        | Some q => Some (S q)
        | None => None
        end
      else Some p in
    match banner with
    | None => Error "tune2fs: truncated output"
    | Some p =>
        match tune2fs_loop (S (length m)) m p [] with
        | Some ret => Ok ret
        | None => Diverged
        end
    end.

(** [do_get_e2uuid], lines 175-234.  The marker is the 17 characters
    of the C literal: a newline and [Filesystem UUID:].  A failing
    [strdup] is not modelled. *)
Definition uuid_marker : string := String LF "Filesystem UUID:".

Definition is_uuid_char (c : ascii) : bool := c_isxdigit c || Ascii.eqb c "-".

Definition no_uuid_msg : string :=
  "no Filesystem UUID in the output of tune2fs -l".
Definition malformed_uuid_msg : string :=
  "malformed Filesystem UUID in the output of tune2fs -l".

Definition do_get_e2uuid (w : world) (device : string) : reply cstring :=
  let c := w_command w ["/sbin/tune2fs"; "-l"; device]%string in
  if (cmd_r c =? -1)%Z then Error ("tune2fs -l: " +:+ cmd_err c)
  else
    let m : buffer := cmd_out c ++ [NUL] in
    match strstr m 0 uuid_marker with
    | None => Error no_uuid_msg
    | Some p =>
        let p := p + 17 in
        let p := skip_while c_isspace m p in
        if is_nul (load m p) then Error malformed_uuid_msg
        else
          let q := skip_while is_uuid_char m p in
          if is_nul (load m q) then Error malformed_uuid_msg
          else
            let m := store m q NUL in
            Ok (cstr m p)
    end.

(** [get_mke2fs], lines 358-370: the first of [progs] that exists. *)
Definition progs : list string := ["/sbin/mke4fs"; "/sbin/mke2fs"]%string.

Fixpoint first_accessible (w : world) (ps : list string) : option string :=
  match ps with
  | [] => None
  | prog :: ps' =>
      if (w_access w prog =? 0)%Z then Some prog else first_accessible w ps'
  end.

Definition no_mke2fs_msg : string :=
  "mke2fs: no mke2fs binary found in appliance".

Definition get_mke2fs (w : world) : option string * list event :=
  match first_accessible w progs with
  | Some prog => (Some prog, [])
  | None => (None, [EvReplyError no_mke2fs_msg])
  end.

(** [snprintf (buf, sizeof buf, "%d", n)] for an [int] (it fits). *)
Definition string_of_int (n : Z) : string := NilZero.string_of_int (Z.to_int n).

(** The common body of [do_mke2fs_J], [do_mke2fs_JL] and [do_mke2fs_JU],
    lines 372-460, which differ in the prefix of the journal
    specification and in the name that starts their error. *)
Definition mke2fs_with_journal (name jprefix : string)
    (w : world) (fstype : string) (blocksize : Z) (device jref : string)
  : Z * list event :=
  match get_mke2fs w with
  | (None, t) => ((-1)%Z, t)
  | (Some prog, t) =>
      let blocksize_s := string_of_int blocksize in
      let jdev := jprefix +:+ jref in
      let argv :=
        [prog; "-t"; fstype; "-J"; jdev; "-b"; blocksize_s; device]%string in
      let c := w_command w argv in
      if (cmd_r c =? -1)%Z then
        ((-1)%Z, t ++ [EvCommand argv; EvReplyError (name +:+ ": " +:+ cmd_err c)])
      else (0%Z, t ++ [EvCommand argv])
  end.

Definition do_mke2fs_J := mke2fs_with_journal "mke2fs_J" "device=".
Definition do_mke2fs_JL := mke2fs_with_journal "mke2fs_JL" "device=LABEL=".
Definition do_mke2fs_JU := mke2fs_with_journal "mke2fs_JU" "device=UUID=".

(** [int len = strlen (out)] in [do_get_e2label]: the [size_t] is stored
    in an [int], which keeps its low 32 bits, read as a signed number. *)
Definition int_of_size (n : nat) : Z :=
  ((Z.of_nat n + 2 ^ 31) mod 2 ^ 32 - 2 ^ 31)%Z.

(** [do_get_e2label], lines 134-156: the output of [e2label], with the
    newline that ends it, if there is one, overwritten by a NUL. *)
Definition do_get_e2label (w : world) (device : string) : reply cstring :=
  let c := w_command w ["/sbin/e2label"; device]%string in
  if (cmd_r c =? -1)%Z then Error ("e2label: " +:+ cmd_err c)
  else
    let m : buffer := cmd_out c ++ [NUL] in
    let len := int_of_size (strlen m 0) in
    let m :=
      if (0 <? len)%Z && Ascii.eqb (load m (Z.to_nat (len - 1))) LF
      then store m (Z.to_nat (len - 1)) NUL
      else m in
    Ok (cstr m 0).

(** The body that the [int] operations on one command share: run the
    command on [argv]; when it fails, reply with its stderr behind [tag]
    and return [-1]; return [0] otherwise. *)
Definition run_tool (tag : string) (argv : list string) (w : world)
  : Z * list event :=
  let c := w_command w argv in
  if (cmd_r c =? -1)%Z then
    ((-1)%Z, [EvCommand argv; EvReplyError (tag +:+ ": " +:+ cmd_err c)])
  else (0%Z, [EvCommand argv]).

(** [do_set_e2label], lines 117-132. *)
Definition do_set_e2label (w : world) (device label : string) :=
  run_tool "e2label" ["/sbin/e2label"; device; label]%string w.

(** [do_set_e2uuid], lines 158-173. *)
Definition do_set_e2uuid (w : world) (device uuid : string) :=
  run_tool "tune2fs -U" ["/sbin/tune2fs"; "-U"; uuid; device]%string w.

(** [do_resize2fs], lines 236-251. *)
Definition do_resize2fs (w : world) (device : string) :=
  run_tool "resize2fs" ["/sbin/resize2fs"; device]%string w.

(** [do_e2fsck_f], lines 253-268. *)
Definition do_e2fsck_f (w : world) (device : string) :=
  run_tool "e2fsck" ["/sbin/e2fsck"; "-p"; "-f"; device]%string w.

(** [do_mke2journal], lines 270-290. *)
Definition do_mke2journal (w : world) (blocksize : Z) (device : string) :=
  run_tool "mke2journal"
    ["/sbin/mke2fs"; "-O"; "journal_dev"; "-b"; string_of_int blocksize;
     device]%string w.

(** [do_mke2journal_L], lines 292-313. *)
Definition do_mke2journal_L (w : world) (blocksize : Z) (label device : string) :=
  run_tool "mke2journal_L"
    ["/sbin/mke2fs"; "-O"; "journal_dev"; "-b"; string_of_int blocksize;
     "-L"; label; device]%string w.

(** [do_mke2journal_U], lines 315-336. *)
Definition do_mke2journal_U (w : world) (blocksize : Z) (uuid device : string) :=
  run_tool "mke2journal_U"
    ["/sbin/mke2fs"; "-O"; "journal_dev"; "-b"; string_of_int blocksize;
     "-U"; uuid; device]%string w.

End Ext2.

Import Ext2.

(** ** daemon/mkfs.c *)

(** Modelled from the spec: [is_power_of_2] is declared in [daemon.h],
    which is not under src/; the spec says the block size must be "a power
    of two". *)
Definition is_power_of_2 (v : Z) : bool :=
  ((0 <? v) && (v =? 2 ^ Z.log2 v))%Z.

(** Modelled from the spec: [GUESTFS_MKFS_OPTS_BLOCKSIZE_BITMASK] comes from
    a generated header that is not under src/; the spec describes it as the
    flag in the process-wide bitmask that says the block size was supplied.
    Block size is the only optional argument of the call, so its flag is
    taken to be the lowest bit. *)
Definition GUESTFS_MKFS_OPTS_BLOCKSIZE_BITMASK : Z := 1%Z.

Module Mkfs.

Definition MAX_ARGS : nat := 16.

Definition INT_MIN : Z := (- 2 ^ 31)%Z.

(** Modelled from the spec: the macro [STREQ] is defined outside src/; the
    spec reads it as equality of strings. *)
Definition STREQ (a b : string) : bool := String.eqb a b.

(** The locals of [do_mkfs_opts] that outlive a statement, and the
    collaborator calls made so far.  [blocksize_str] is written once, before
    its address is stored in [argv], so [argv] holds it by value. *)
Record frame := Frame {
  argv : list (option string);
  i : nat;
  trace : list event;
}.

(** How a statement ends: it falls through with a value, the function
    returns, the process aborts, or the behaviour is undefined (a store
    outside [argv], a division that C does not define). *)
Inductive flow (A : Type) :=
| Next (a : A)
| Return (r : Z)
| Abort
| Undefined.
Arguments Next {A} a.
Arguments Return {A} r.
Arguments Abort {A}.
Arguments Undefined {A}.

Definition M (A : Type) : Type := frame → flow A * frame.

Definition ret {A} (a : A) : M A := λ f, (Next a, f).

Definition bind {A B} (c : M A) (k : A → M B) : M B := λ f,
  match c f with
  | (Next a, f') => k a f'
  | (Return r, f') => (Return r, f')
  | (Abort, f') => (Abort, f')
  | (Undefined, f') => (Undefined, f')
  end.

#[export] Instance M_ret : MRet M := @ret.
#[export] Instance M_bind : MBind M := λ A B k c, bind c k.

Definition return_ {A} (r : Z) : M A := λ f, (Return r, f).
Definition abort {A} : M A := λ f, (Abort, f).
Definition when (b : bool) (c : M unit) : M unit := if b then c else ret tt.

(** [argv[i++] = a] *)
Definition push (a : option string) : M unit := λ f,
  if i f <? MAX_ARGS then
    (Next tt, Frame (<[i f := a]> (argv f)) (S (i f)) (trace f))
  else (Undefined, f).

Definition get_i : M nat := λ f, (Next (i f), f).

Definition log (e : event) : M unit := λ f,
  (Next tt, Frame (argv f) (i f) (trace f ++ [e])).

Definition reply_with_error (msg : string) : M unit := log (EvReplyError msg).

Definition blockdev_getss (w : world) (device : string) : M Z :=
  log (EvBlockdevGetss device) ;; ret (w_blockdev_getss w device).

(** [a / b] on [int]. *)
Definition int_div (a b : Z) : M Z :=
  if (b =? 0)%Z || ((a =? INT_MIN)%Z && (b =? -1)%Z) then λ f, (Undefined, f)
  else ret (Z.quot a b).

(** The strings [commandv] sees: [argv] up to its first NULL. *)
Fixpoint argv_strings (a : list (option string)) : list string :=
  match a with
  | Some s :: a' => s :: argv_strings a'
  | _ => []
  end.

Definition commandv (w : world) : M command_result := λ f,
  let args := argv_strings (argv f) in
  (Next (w_command w args), Frame (argv f) (i f) (trace f ++ [EvCommand args])).

Definition blocksize_msg : string := "block size must be > 0 and a power of 2".

Definition cluster_msg (fstype : string) (blocksize sectorsize spc : Z) : string :=
  "unsupported cluster size for " +:+ fstype
  +:+ " filesystem (requested cluster size = " +:+ string_of_int blocksize
  +:+ ", sector size = " +:+ string_of_int sectorsize
  +:+ ", trying sectors per cluster = " +:+ string_of_int spc +:+ ")".

(** [do_mkfs_opts], lines 35-133; [optargs_bitmask] is the global it
    consults. *)
Definition do_mkfs_opts (w : world) (optargs_bitmask : Z)
    (fstype device : string) (blocksize : Z) : M Z :=
  push (Some "mkfs"%string) ;;
  push (Some "-t"%string) ;;
  push (Some fstype) ;;
  when (STREQ fstype "ntfs") (push (Some "-Q"%string)) ;;
  when (STREQ fstype "reiserfs") (push (Some "-f"%string)) ;;
  when (STREQ fstype "jfs") (push (Some "-f"%string)) ;;
  when (STREQ fstype "gfs" || STREQ fstype "gfs2")
    (push (Some "-p"%string) ;;
     push (Some "lock_nolock"%string) ;;
     push (Some "-j"%string) ;;
     push (Some "1"%string) ;;
     push (Some "-O"%string)) ;;
  when (negb (Z.land optargs_bitmask GUESTFS_MKFS_OPTS_BLOCKSIZE_BITMASK =? 0)%Z)
    (when ((blocksize <=? 0)%Z || negb (is_power_of_2 blocksize))
       (reply_with_error blocksize_msg ;; return_ (-1)%Z) ;;
     if STREQ fstype "vfat" || STREQ fstype "msdos" then
       sectorsize ← blockdev_getss w device ;
       when (sectorsize =? -1)%Z (return_ (-1)%Z) ;;
       sectors_per_cluster ← int_div blocksize sectorsize ;
       when ((sectors_per_cluster <? 1)%Z || (128 <? sectors_per_cluster)%Z)
         (reply_with_error
            (cluster_msg fstype blocksize sectorsize sectors_per_cluster) ;;
          return_ (-1)%Z) ;;
       push (Some "-s"%string) ;;
       push (Some (string_of_int sectors_per_cluster))
     else if STREQ fstype "ntfs" then
       push (Some "-c"%string) ;;
       push (Some (string_of_int blocksize))
     else
       push (Some "-b"%string) ;;
       push (Some (string_of_int blocksize))) ;;
  push (Some device) ;;
  push None ;;
  n ← get_i ;
  when (MAX_ARGS <? n) abort ;;
  c ← commandv w ;
  if (cmd_r c =? -1)%Z then
    reply_with_error (fstype +:+ ": " +:+ device +:+ ": " +:+ cmd_err c) ;;
    return_ (-1)%Z
  else return_ 0%Z.

(** The frame on entry: nothing pushed, nothing called, and [argv]
    holding whatever [stack] left in its [MAX_ARGS] slots. *)
Definition entry (stack : nat → option string) : frame :=
  Frame (map stack (seq 0 MAX_ARGS)) 0 [].

(** What a call leaves behind: how it ended, and the final frame. *)
Definition call (c : M Z) (stack : nat → option string) : flow Z * frame :=
  c (entry stack).

(** [do_mkfs], lines 135-140, and [do_mkfs_b], lines 142-147, set the
    global and call [do_mkfs_opts]. *)
Definition do_mkfs (w : world) (fstype device : string) : M Z :=
  do_mkfs_opts w 0%Z fstype device 0%Z.

Definition do_mkfs_b (w : world) (fstype : string) (blocksize : Z)
    (device : string) : M Z :=
  do_mkfs_opts w GUESTFS_MKFS_OPTS_BLOCKSIZE_BITMASK fstype device blocksize.

End Mkfs.

Import Mkfs.

(** ** The listing, in the words of the specification

    The key/value list that [tune2fs -l] output stands for: the output is
    cut into lines at newlines, each line is split at its first colon, the
    value loses its leading whitespace, and the three spellings of "none"
    become the empty string. *)

(** The characters in front of the first [c] (all of [s] without one). *)
Fixpoint before (c : ascii) (s : cstring) : cstring :=
  match s with
  | [] => []
  | x :: s' => if Ascii.eqb x c then [] else x :: before c s'
  end.

(** The characters behind the first [c], if there is one. *)
Fixpoint after (c : ascii) (s : cstring) : option cstring :=
  match s with
  | [] => None
  | x :: s' => if Ascii.eqb x c then Some s' else after c s'
  end.

Fixpoint trim_left (s : cstring) : cstring :=
  match s with
  | [] => []
  | x :: s' => if c_isspace x then trim_left s' else s
  end.

(** A value as it stands once trimmed: it does not start with whitespace. *)
Definition starts_text (v : cstring) : Prop :=
  match v with
  | [] => True
  | x :: _ => c_isspace x = false
  end.

Definition none_spelling (v : cstring) : bool :=
  bool_decide (v = lit "<none>" ∨ v = lit "<not available>" ∨ v = lit "(none)").

Definition stored_value (v : cstring) : cstring :=
  if none_spelling v then [] else v.

Definition line_pair (l : cstring) : list cstring :=
  match after ":" l with
  | Some v => [before ":" l; stored_value (trim_left v)]
  | None => [l; []]
  end.

(** The lines of a text; a text that ends in a newline has an empty last
    line. *)
Fixpoint lines (s : cstring) : list cstring :=
  match s with
  | [] => [[]]
  | x :: s' =>
      if Ascii.eqb x LF then [] :: lines s'
      else match lines s' with
           | l :: ls => (x :: l) :: ls
           | [] => [[x]]
           end
  end.

(** The lines in front of the first blank one. *)
Fixpoint upto_blank (ls : list cstring) : list cstring :=
  match ls with
  | [] => []
  | [] :: _ => []
  | l :: ls' => l :: upto_blank ls'
  end.

(** What the loop of [do_tune2fs_l] makes of the text at which it starts. *)
Definition listing (s : cstring) : list cstring :=
  flat_map line_pair (upto_blank (lines s)).

(** Lines, each ended by a newline. *)
Definition unlines (ls : list cstring) : cstring :=
  concat (map (λ l, l ++ [LF]) ls).

(** A line of a listing: not blank, and free of newlines and NULs. *)
Definition text_line (l : cstring) : Prop := l ≠ [] ∧ (LF ∉ l) ∧ (NUL ∉ l).

(** [needle] occurs in [hay], and [pre] is what precedes its first
    occurrence. *)
Definition occurs (needle hay : cstring) : Prop :=
  ∃ pre post, hay = pre ++ needle ++ post.

Definition first_at (needle pre hay : cstring) : Prop :=
  (∃ post, hay = pre ++ needle ++ post) ∧
  ∀ pre' post', hay = pre' ++ needle ++ post' → length pre ≤ length pre'.

(** ** The mkfs command line, in the words of the specification *)

Definition is_fat (fstype : string) : bool :=
  STREQ fstype "vfat" || STREQ fstype "msdos".

(** The block-size flag and its argument. *)
Definition blocksize_args (w : world) (fstype device : string) (blocksize : Z)
  : list string :=
  if is_fat fstype then
    ["-s"; string_of_int (Z.quot blocksize (w_blockdev_getss w device))]%string
  else if STREQ fstype "ntfs" then ["-c"; string_of_int blocksize]%string
  else ["-b"; string_of_int blocksize]%string.

(** The argument vector, in the fixed order of the specification. *)
Definition mkfs_args (w : world) (with_blocksize : bool) (fstype device : string)
    (blocksize : Z) : list string :=
  ["mkfs"; "-t"; fstype]%string
  ++ (if STREQ fstype "ntfs" then ["-Q"]%string else [])
  ++ (if STREQ fstype "reiserfs" || STREQ fstype "jfs" then ["-f"]%string else [])
  ++ (if STREQ fstype "gfs" || STREQ fstype "gfs2"
      then ["-p"; "lock_nolock"; "-j"; "1"; "-O"]%string else [])
  ++ (if with_blocksize then blocksize_args w fstype device blocksize else [])
  ++ [device].

(** The caller supplied a block size. *)
Definition blocksize_given (optargs_bitmask : Z) : bool :=
  negb (Z.land optargs_bitmask GUESTFS_MKFS_OPTS_BLOCKSIZE_BITMASK =? 0)%Z.

(** The sector size was reported, and the cluster is 1 to 128 sectors. *)
Definition cluster_ok (w : world) (device : string) (blocksize : Z) : bool :=
  let sectorsize := w_blockdev_getss w device in
  let spc := Z.quot blocksize sectorsize in
  negb (sectorsize =? -1)%Z && negb (sectorsize =? 0)%Z
  && negb ((spc <? 1)%Z || (128 <? spc)%Z).

(** The requests that get as far as running [mkfs]. *)
Definition mkfs_accepts (w : world) (optargs_bitmask : Z) (fstype device : string)
    (blocksize : Z) : bool :=
  negb (blocksize_given optargs_bitmask)
  || (negb ((blocksize <=? 0)%Z || negb (is_power_of_2 blocksize))
      && (negb (is_fat fstype) || cluster_ok w device blocksize)).

(** The commands of a trace, in order. *)
Fixpoint commands_run (t : list event) : list (list string) :=
  match t with
  | [] => []
  | EvCommand a :: t' => a :: commands_run t'
  | _ :: t' => commands_run t'
  end.

(** ** Replies, pairs and the UUID, for the further properties *)

(** How many times a run called [reply_with_error]. *)
Fixpoint errors_replied (t : list event) : nat :=
  match t with
  | [] => 0
  | EvReplyError _ :: t' => S (errors_replied t')
  | _ :: t' => errors_replied t'
  end.

(** The discipline of an [int] operation of the daemon: [0] comes with no
    error replied and the one command run, [-1] with exactly one error
    replied and at most one command run. *)
Definition replied_as_returned (r : Z * list event) : Prop :=
  (fst r = 0%Z ∧ errors_replied (snd r) = 0 ∧ length (commands_run (snd r)) = 1) ∨
  (fst r = (-1)%Z ∧ errors_replied (snd r) = 1 ∧ length (commands_run (snd r)) ≤ 1).

(** The request reaches [do_blockdev_getss] (the block size is supplied
    and valid, the type is of the FAT family) and the query answers
    [-1]. *)
Definition sector_query_failed (w : world) (optargs_bitmask : Z)
    (fstype device : string) (blocksize : Z) : bool :=
  blocksize_given optargs_bitmask
  && negb ((blocksize <=? 0)%Z || negb (is_power_of_2 blocksize))
  && is_fat fstype && (w_blockdev_getss w device =? -1)%Z.

(** The same, with the query answering [0]. *)
Definition sector_size_zero (w : world) (optargs_bitmask : Z)
    (fstype device : string) (blocksize : Z) : bool :=
  blocksize_given optargs_bitmask
  && negb ((blocksize <=? 0)%Z || negb (is_power_of_2 blocksize))
  && is_fat fstype && (w_blockdev_getss w device =? 0)%Z.

(** The flat list that [do_tune2fs_l] returns for a list of pairs. *)
Definition flatten_pairs (kvs : list (cstring * cstring)) : list cstring :=
  flat_map (λ kv, [kv.1; kv.2]) kvs.

(** What a key and a value of the listing can be. *)
Definition attribute_key (k : cstring) : Prop :=
  (":"%char ∉ k) ∧ (LF ∉ k) ∧ (NUL ∉ k).

Definition attribute_value (v : cstring) : Prop :=
  starts_text v ∧ none_spelling v = false ∧ (LF ∉ v) ∧ (NUL ∉ v).

(** Whitespace between the colon and the value of a line. *)
Definition padding (pad : cstring) : Prop :=
  Forall (λ x, c_isspace x = true) pad ∧ (LF ∉ pad).

(** A line of [tune2fs -l] for a key, a padding and a value. *)
Definition render_line (row : cstring * cstring * cstring) : cstring :=
  let '(k, pad, v) := row in k ++ ":"%char :: pad ++ v.

(** The longest prefix of hexadecimal digits and hyphens. *)
Fixpoint uuid_run (s : cstring) : cstring :=
  match s with
  | [] => []
  | x :: s' => if is_uuid_char x then x :: uuid_run s' else []
  end.

(** What [do_get_e2uuid] makes of the text [s] of a successful
    [tune2fs -l], as a function of the text. *)
Definition uuid_of (s : cstring) : reply cstring :=
  match find_sub (lit uuid_marker) s with
  | None => Error no_uuid_msg
  | Some k =>
      let rest := trim_left (drop (k + 17) s) in
      if bool_decide (rest = []) then Error malformed_uuid_msg
      else if bool_decide (uuid_run rest = rest) then Error malformed_uuid_msg
      else Ok (uuid_run rest)
  end.

(** The key under which [tune2fs -l] prints the UUID. *)
Definition uuid_label : string := "Filesystem UUID".

(** ** Worlds for concrete runs *)

(** An appliance in which every command succeeds with output [out], the
    paths of [files] exist, and every device has sectors of [sectorsize]
    bytes. *)
Definition appliance (out : list ascii) (files : list string) (sectorsize : Z)
  : world :=
  World (λ _, CommandResult 0 out "")
        (λ path, if bool_decide (path ∈ files) then 0%Z else (-1)%Z)
        (λ _, sectorsize).

Definition world_with_output (out : list ascii) : world :=
  appliance out ["/sbin/mke2fs"%string] 512.

Definition world_with_files (files : list string) : world :=
  appliance [] files 512.

Definition world_with_sectors (sectorsize : Z) : world :=
  appliance [] ["/sbin/mke2fs"%string] sectorsize.

(** An appliance in which every command fails, with [err] on its
    stderr. *)
Definition broken_appliance (err : string) : world :=
  World (λ _, CommandResult (-1) [] err) (λ _, 0%Z) (λ _, 512%Z).

(** * Properties *)

(** ** Views of a buffer

    Every function of [CString] looks at the buffer from a pointer onwards,
    so the lemmas are stated on [drop p m]. *)

Section views.
Implicit Types (m : buffer) (p q : ptr) (s k r : cstring) (c : ascii).

Lemma load_view m p c r : drop p m = c :: r → load m p = c.
Proof.
  intros H. unfold load.
  by rewrite <-(Nat.add_0_r p), <-lookup_drop, H.
Qed.

Lemma drop_view_app m p k r : drop p m = k ++ r → drop (p + length k) m = r.
Proof. intros H. by rewrite <-drop_drop, H, drop_app_length. Qed.

Lemma load_view_app m p k c r : drop p m = k ++ c :: r → load m (p + length k) = c.
Proof. intros H. eapply load_view, drop_view_app, H. Qed.

Lemma store_view m p k c c' r :
  drop p m = k ++ c :: r → drop p (store m (p + length k) c') = k ++ c' :: r.
Proof.
  intros H. unfold store. rewrite drop_insert_ge by lia.
  replace (p + length k - p) with (length k + 0) by lia.
  by rewrite H, insert_app_r.
Qed.

Lemma store_view_before m p q c : q < p → drop p (store m q c) = drop p m.
Proof. intros H. unfold store. by rewrite drop_insert_lt. Qed.

Lemma scan_app_stop stop k c r :
  Forall (λ x, stop x = false) k → stop c = true →
  scan stop (k ++ c :: r) = length k.
Proof.
  intros Hk Hc. induction Hk as [|x k Hx _ IH]; simpl.
  - by rewrite Hc.
  - by rewrite Hx, IH.
Qed.

Lemma eqb_false_of_notin c x s : c ∉ s → x ∈ s → Ascii.eqb x c = false.
Proof.
  intros Hc Hx. apply Ascii.eqb_neq. intros ->. done.
Qed.

Lemma strlen_view m p s r : drop p m = s ++ NUL :: r → NUL ∉ s → strlen m p = length s.
Proof.
  intros H Hs. unfold strlen. rewrite H. apply scan_app_stop; [|done].
  apply Forall_forall. intros x Hx. by eapply eqb_false_of_notin.
Qed.

Lemma cstr_view m p s r : drop p m = s ++ NUL :: r → NUL ∉ s → cstr m p = s.
Proof.
  intros H Hs. unfold cstr. rewrite (strlen_view _ _ _ _ H Hs), H.
  apply take_app_length.
Qed.

Lemma strchrnul_found m p k c r :
  drop p m = k ++ c :: r → c ∉ k → NUL ∉ k → strchrnul m p c = p + length k.
Proof.
  intros H Hc Hn. unfold strchrnul. rewrite H. f_equal.
  apply scan_app_stop.
  - apply Forall_forall. intros x Hx. unfold is_nul.
    rewrite (eqb_false_of_notin c x k), (eqb_false_of_notin NUL x k); done.
  - by rewrite Ascii.eqb_refl.
Qed.

Lemma strchrnul_none m p s c r :
  drop p m = s ++ NUL :: r → c ∉ s → NUL ∉ s → strchrnul m p c = p + length s.
Proof.
  intros H Hc Hn. unfold strchrnul. rewrite H. f_equal.
  apply scan_app_stop.
  - apply Forall_forall. intros x Hx. unfold is_nul.
    rewrite (eqb_false_of_notin c x s), (eqb_false_of_notin NUL x s); done.
  - unfold is_nul. rewrite Ascii.eqb_refl. apply orb_true_r.
Qed.

Lemma strchr_found m p k c r :
  drop p m = k ++ c :: r → c ∉ k → NUL ∉ k → strchr m p c = Some (p + length k).
Proof.
  intros H Hc Hn. unfold strchr.
  rewrite (strchrnul_found _ _ _ _ _ H Hc Hn), (load_view_app _ _ _ _ _ H).
  by rewrite Ascii.eqb_refl.
Qed.

Lemma strchr_none m p s c r :
  drop p m = s ++ NUL :: r → c ∉ s → NUL ∉ s → c ≠ NUL → strchr m p c = None.
Proof.
  intros H Hc Hn Hne. unfold strchr.
  rewrite (strchrnul_none _ _ _ _ _ H Hc Hn), (load_view_app _ _ _ _ _ H).
  apply Ascii.eqb_neq in Hne. rewrite Ascii.eqb_sym in Hne. by rewrite Hne.
Qed.

Lemma skip_while_view keep m p k c r :
  drop p m = k ++ c :: r →
  Forall (λ x, keep x = true) k → NUL ∉ k →
  is_nul c || negb (keep c) = true →
  skip_while keep m p = p + length k.
Proof.
  intros H Hk Hn Hc. unfold skip_while. rewrite H. f_equal.
  apply scan_app_stop.
  - apply Forall_forall. intros x Hx.
    rewrite Forall_forall in Hk. rewrite (Hk x Hx).
    unfold is_nul. by rewrite (eqb_false_of_notin NUL x k).
  - destruct (is_nul c), (keep c); done.
Qed.

End views.

(** ** Splitting text *)

Section text.
Implicit Types (s k r l : cstring) (c : ascii).

Lemma first_split c s :
  ((c ∉ s) ∧ after c s = None ∧ before c s = s) ∨
  (∃ k r, s = k ++ c :: r ∧ (c ∉ k) ∧ after c s = Some r ∧ before c s = k).
Proof.
  induction s as [|x s IH]; simpl.
  - left. split; [apply not_elem_of_nil | done].
  - destruct (Ascii.eqb_spec x c) as [->|Hne].
    + right. exists [], s. split_and!; [done | apply not_elem_of_nil | done..].
    + destruct IH as [(Hc & -> & ->) | (k & r & -> & Hc & -> & ->)].
      * left. split; [|done]. apply not_elem_of_cons. auto.
      * right. exists (x :: k), r. split_and!; [done | | done..].
        apply not_elem_of_cons. auto.
Qed.

Lemma before_app c k r : c ∉ k → before c (k ++ c :: r) = k.
Proof.
  induction k as [|x k IH]; simpl; intros Hc.
  - by rewrite Ascii.eqb_refl.
  - apply not_elem_of_cons in Hc as [Hx Hk].
    apply not_eq_sym, Ascii.eqb_neq in Hx. by rewrite Hx, IH.
Qed.

Lemma after_app c k r : c ∉ k → after c (k ++ c :: r) = Some r.
Proof.
  induction k as [|x k IH]; simpl; intros Hc.
  - by rewrite Ascii.eqb_refl.
  - apply not_elem_of_cons in Hc as [Hx Hk].
    apply not_eq_sym, Ascii.eqb_neq in Hx. by rewrite Hx, IH.
Qed.

Lemma after_none c s : c ∉ s → after c s = None.
Proof.
  intros Hc. destruct (first_split c s) as [(_ & H & _) | (k & r & -> & _)];
    [done|].
  exfalso. apply Hc, elem_of_app. right. left.
Qed.

Lemma trim_split s :
  ∃ ws, s = ws ++ trim_left s ∧ Forall (λ x, c_isspace x = true) ws ∧
        starts_text (trim_left s).
Proof.
  induction s as [|x s (ws & Hs & Hws & Hv)]; simpl.
  - by exists [].
  - destruct (c_isspace x) eqn:Hx.
    + exists (x :: ws). split_and!; [simpl; congruence | by constructor | done].
    + exists []. by split_and!.
Qed.

Lemma trim_left_app ws v :
  Forall (λ x, c_isspace x = true) ws → starts_text v → trim_left (ws ++ v) = v.
Proof.
  intros Hws Hv. induction Hws as [|x ws Hx _ IH]; simpl.
  - destruct v as [|x v]; simpl in *; [done | by rewrite Hv].
  - by rewrite Hx.
Qed.

Lemma space_not_nul ws : Forall (λ x, c_isspace x = true) ws → NUL ∉ ws.
Proof.
  intros Hws Hn. rewrite Forall_forall in Hws. by apply Hws in Hn.
Qed.

Lemma lines_no_newline l : LF ∉ l → lines l = [l].
Proof.
  induction l as [|x l IH]; simpl; intros Hl; [done|].
  apply not_elem_of_cons in Hl as [Hx Hl].
  apply not_eq_sym, Ascii.eqb_neq in Hx. by rewrite Hx, IH.
Qed.

Lemma lines_newline l s : LF ∉ l → lines (l ++ LF :: s) = l :: lines s.
Proof.
  induction l as [|x l IH]; simpl; intros Hl; [done|].
  apply not_elem_of_cons in Hl as [Hx Hl].
  apply not_eq_sym, Ascii.eqb_neq in Hx. by rewrite Hx, IH.
Qed.

Lemma listing_nil : listing [] = [].
Proof. done. Qed.

Lemma listing_blank s : listing (LF :: s) = [].
Proof. done. Qed.

Lemma listing_last l : LF ∉ l → listing l = flat_map line_pair (upto_blank [l]).
Proof. intros Hl. unfold listing. by rewrite lines_no_newline. Qed.

Lemma listing_line l s :
  l ≠ [] → LF ∉ l → listing (l ++ LF :: s) = line_pair l ++ listing s.
Proof.
  intros Hne Hl. unfold listing. rewrite lines_newline by done.
  by destruct l.
Qed.

(** A well-formed body is listed line by line. *)
Lemma listing_unlines ls :
  Forall text_line ls → listing (unlines ls) = flat_map line_pair ls.
Proof.
  induction 1 as [|l ls (Hne & Hlf & _) _ IH]; [done|].
  unfold unlines in *. simpl. rewrite <-app_assoc. simpl.
  by rewrite listing_line, IH.
Qed.

(** A blank line ends the listing: what follows it is not listed. *)
Lemma listing_unlines_blank ls s :
  Forall text_line ls → listing (unlines ls ++ LF :: s) = flat_map line_pair ls.
Proof.
  induction 1 as [|l ls (Hne & Hlf & _) _ IH]; [done|].
  unfold unlines in *. simpl. rewrite <-!app_assoc. simpl.
  by rewrite listing_line, IH.
Qed.

Lemma none_spelling_decide v :
  bool_decide (v = lit "<none>") || bool_decide (v = lit "<not available>")
  || bool_decide (v = lit "(none)") = none_spelling v.
Proof.
  unfold none_spelling. rewrite !bool_decide_or. apply eq_sym, orb_assoc.
Qed.

End text.

(** ** The loop of [do_tune2fs_l] computes the listing *)

Section tune2fs.
Implicit Types (m : buffer) (p : ptr) (s line : cstring) (ret : list cstring).

Lemma drop_view_cons m p k c r :
  drop p m = k ++ c :: r → drop (S (p + length k)) m = r.
Proof.
  intros H. apply drop_view_app in H.
  replace (S (p + length k)) with (p + length k + length [c]) by (simpl; lia).
  by apply (drop_view_app _ _ [c]).
Qed.

(** One line, NUL-terminated at [p]: its pair is appended, and the buffer
    behind the line is left alone. *)
Lemma tune2fs_split_spec m p line X ret :
  drop p m = line ++ NUL :: X → NUL ∉ line →
  ∃ m', tune2fs_split m p ret = (m', ret ++ line_pair line) ∧
        drop (p + length line) m' = NUL :: X.
Proof.
  intros H Hn. unfold tune2fs_split, line_pair, add_string.
  destruct (first_split ":" line)
    as [(Hc & -> & _) | (k & r & -> & Hc & -> & ->)].
  - rewrite (strchr_none _ _ _ _ _ H Hc Hn) by done.
    rewrite (cstr_view _ _ _ _ H Hn). exists m. split.
    + by rewrite <-app_assoc.
    + by apply drop_view_app.
  - rewrite <-app_assoc in H. simpl in H.
    apply not_elem_of_app in Hn as [Hnk Hnr].
    apply not_elem_of_cons in Hnr as [_ Hnr].
    rewrite (strchr_found _ _ _ _ _ H Hc Hnk).
    set (m2 := store m (p + length k) NUL).
    assert (H2 : drop p m2 = k ++ NUL :: r ++ NUL :: X)
      by (by apply (store_view _ _ _ ":")).
    rewrite (cstr_view _ _ _ _ H2 Hnk).
    destruct (trim_split r) as (ws & Hr & Hws & Hv).
    set (v := trim_left r) in *.
    assert (Hnv : NUL ∉ v).
    { intros Hin. apply Hnr. rewrite Hr. apply elem_of_app. by right. }
    assert (H3 : drop (S (p + length k)) m2 = ws ++ v ++ NUL :: X).
    { apply drop_view_cons in H2. rewrite H2, Hr at 1. by rewrite <-app_assoc. }
    assert (Hskip : skip_while c_isspace m2 (S (p + length k))
                    = S (p + length k) + length ws).
    { destruct v as [|x v'] eqn:Ev; simpl in H3.
      - apply (skip_while_view _ _ _ _ _ _ H3); [done | by apply space_not_nul | done].
      - apply (skip_while_view _ _ _ _ _ _ H3); [done | by apply space_not_nul |].
        simpl in Hv. rewrite Hv. apply orb_true_r. }
    rewrite Hskip.
    assert (H4 : drop (S (p + length k) + length ws) m2 = v ++ NUL :: X)
      by (by apply drop_view_app in H3).
    unfold strcmp_eq. rewrite (cstr_view _ _ _ _ H4 Hnv).
    rewrite none_spelling_decide. unfold stored_value.
    exists m2. split.
    + destruct (none_spelling v); by rewrite <-app_assoc.
    + unfold m2. rewrite store_view_before by (rewrite length_app; simpl; lia).
      replace (k ++ ":"%char :: r ++ NUL :: X)
        with ((k ++ ":"%char :: r) ++ NUL :: X) in H
        by (by rewrite <-app_assoc).
      by apply drop_view_app in H.
Qed.

Lemma is_nul_false c s : NUL ∉ c :: s → is_nul c = false.
Proof.
  intros Hn. apply Ascii.eqb_neq. intros ->. apply Hn. left.
Qed.

Lemma tune2fs_loop_spec fuel : ∀ s junk m p ret,
  drop p m = s ++ NUL :: junk → NUL ∉ s → length s < fuel →
  tune2fs_loop fuel m p ret = Some (ret ++ listing s).
Proof.
  induction fuel as [|fuel IH]; intros s junk m p ret H Hn Hfuel; [lia|].
  simpl. destruct s as [|c s'] eqn:Es.
  { rewrite (load_view _ _ _ _ H). simpl. by rewrite app_nil_r. }
  rewrite <-Es in *. assert (Hc : is_nul c = false) by (subst; by eapply is_nul_false).
  assert (Hload : load m p = c) by (subst s; by apply (load_view _ _ _ _ H)).
  assert (Hpos : 0 < fuel) by (subst s; simpl in Hfuel; lia).
  rewrite Hload, Hc.
  destruct (first_split LF s)
    as [(Hlf & _ & _) | (line & post & Hs & Hlf & _ & _)].
  - (* the last line, without a newline *)
    rewrite (strchrnul_none _ _ _ _ _ H Hlf Hn).
    rewrite (load_view_app _ _ _ _ _ H). simpl.
    rewrite Hload, Hc.
    destruct (tune2fs_split_spec m p s junk ret H Hn) as (m' & -> & H').
    rewrite (IH [] junk m' _ _ H' (not_elem_of_nil _)) by done.
    rewrite listing_nil, (listing_last s Hlf). subst s. simpl.
    by rewrite !app_nil_r.
  - (* a line that ends in a newline, which becomes a NUL *)
    rewrite Hs in H. rewrite <-app_assoc in H. simpl in H.
    assert (Hnl : NUL ∉ line).
    { intros Hin. apply Hn. rewrite Hs. apply elem_of_app. by left. }
    assert (Hnp : NUL ∉ post).
    { intros Hin. apply Hn. rewrite Hs. apply elem_of_app. right. by right. }
    rewrite (strchrnul_found _ _ _ _ _ H Hlf Hnl).
    rewrite (load_view_app _ _ _ _ _ H). rewrite Ascii.eqb_refl.
    set (m1 := store m (p + length line) NUL).
    assert (H1 : drop p m1 = line ++ NUL :: post ++ NUL :: junk)
      by (by apply (store_view _ _ _ LF)).
    destruct line as [|x line'] eqn:El.
    + (* blank: [continue] re-tests [*p], which is now NUL *)
      rewrite (load_view _ _ _ _ H1). simpl.
      rewrite (IH [] (post ++ NUL :: junk) m1 p ret H1 (not_elem_of_nil _))
        by done.
      rewrite Hs, listing_nil. simpl. by rewrite listing_blank.
    + rewrite <-El in *.
      assert (load m1 p = c) as ->.
      { subst line. simpl in H1. rewrite (load_view _ _ _ _ H1).
        rewrite Es in Hs. simpl in Hs. congruence. }
      rewrite Hc.
      destruct (tune2fs_split_spec m1 p line (post ++ NUL :: junk) ret H1 Hnl)
        as (m' & -> & H').
      apply (drop_view_app _ _ [NUL]) in H'. simpl in H'.
      replace (p + length line + 1) with (S (p + length line)) in H' by lia.
      rewrite (IH post junk m' _ _ H' Hnp)
        by (rewrite Hs, length_app in Hfuel; simpl in Hfuel; lia).
      rewrite Hs, listing_line, app_assoc; [done | by subst line | done].
Qed.

(** The buffer that [command] hands back, seen as a C string: the output
    up to its first NUL, if it has one. *)
Lemma c_string_view (out : cstring) :
  ∃ junk, out ++ [NUL] = before NUL out ++ NUL :: junk ∧ NUL ∉ before NUL out.
Proof.
  destruct (first_split NUL out) as [(Hn & _ & ->) | (k & r & -> & Hn & _ & ->)].
  - by exists [].
  - exists (r ++ [NUL]). by rewrite <-app_assoc.
Qed.

Lemma before_all c s : c ∉ s → before c s = s.
Proof.
  intros Hc. destruct (first_split c s) as [(_ & _ & H) | (k & r & -> & _)];
    [done|].
  exfalso. apply Hc, elem_of_app. right. left.
Qed.

Lemma before_length c s : length (before c s) ≤ length s.
Proof.
  induction s as [|x s IH]; simpl; [done|].
  destruct (Ascii.eqb x c); simpl; lia.
Qed.

Lemma banner_test m s junk :
  drop 0 m = s ++ NUL :: junk → NUL ∉ s →
  strncmp_eq m 0 "tune2fs " 8 = bool_decide (lit "tune2fs " `prefix_of` s).
Proof.
  intros H Hn. unfold strncmp_eq. rewrite (cstr_view m 0 s junk) by done.
  apply bool_decide_ext. change (take 8 (lit "tune2fs ")) with (lit "tune2fs ").
  split.
  - intros E. exists (drop 8 s). by rewrite <-E, take_drop.
  - intros [k ->]. by rewrite take_app_length'.
Qed.

(** [do_tune2fs_l] after a successful [tune2fs -l], whatever it printed:
    a banner line, if there is one, must end in a newline and is dropped,
    and the text behind it is listed. *)
Lemma do_tune2fs_l_run w device :
  let c := w_command w ["/sbin/tune2fs"; "-l"; device]%string in
  let s := before NUL (cmd_out c) in
  cmd_r c ≠ (-1)%Z →
  do_tune2fs_l w device =
    if bool_decide (lit "tune2fs " `prefix_of` s) then
      match after LF s with
      | Some rest => Ok (listing rest)
      | None => Error "tune2fs: truncated output"
      end
    else Ok (listing s).
Proof.
  intros c s Hr. unfold do_tune2fs_l. fold c.
  apply Z.eqb_neq in Hr. rewrite Hr.
  destruct (c_string_view (cmd_out c)) as (junk & Hm & Hn). fold s in Hm, Hn.
  assert (Hlen : length s < S (length (cmd_out c ++ [NUL]))).
  { pose proof (before_length NUL (cmd_out c)). fold s in H.
    rewrite length_app. simpl. lia. }
  set (m := cmd_out c ++ [NUL]) in *.
  assert (H0 : drop 0 m = s ++ NUL :: junk) by done.
  rewrite (banner_test m s junk) by done.
  case_bool_decide.
  - destruct (first_split LF s)
      as [(Hlf & -> & _) | (k & r & Hs & Hlf & -> & _)].
    + by rewrite (strchr_none _ _ _ _ _ H0 Hlf Hn).
    + assert (Hnk : NUL ∉ k).
      { intros Hin. apply Hn. rewrite Hs. apply elem_of_app. by left. }
      assert (Hnr : NUL ∉ r).
      { intros Hin. apply Hn. rewrite Hs. apply elem_of_app. right. by right. }
      rewrite Hs in H0. rewrite <-app_assoc in H0. simpl in H0.
      rewrite (strchr_found _ _ _ _ _ H0 Hlf Hnk).
      rewrite (tune2fs_loop_spec _ r junk _ _ []); [done | | done |].
      * by apply (drop_view_cons _ 0 k LF).
      * rewrite Hs, length_app in Hlen. simpl in Hlen. lia.
  - by rewrite (tune2fs_loop_spec _ s junk _ _ []).
Qed.

(** The loop of [do_tune2fs_l] always comes to an end. *)
Lemma do_tune2fs_l_returns w device : do_tune2fs_l w device ≠ Diverged.
Proof.
  destruct (decide (cmd_r (w_command w ["/sbin/tune2fs"; "-l"; device]%string)
                    = (-1)%Z)) as [Hr|Hr].
  - unfold do_tune2fs_l. apply Z.eqb_eq in Hr. by rewrite Hr.
  - rewrite do_tune2fs_l_run by done.
    case_bool_decide; [|done]. by destruct (after LF _).
Qed.

(** The same for an output without NULs, which is all of it a C string. *)
Lemma do_tune2fs_l_listing w device :
  let c := w_command w ["/sbin/tune2fs"; "-l"; device]%string in
  cmd_r c ≠ (-1)%Z → NUL ∉ cmd_out c →
  do_tune2fs_l w device =
    if bool_decide (lit "tune2fs " `prefix_of` cmd_out c) then
      match after LF (cmd_out c) with
      | Some rest => Ok (listing rest)
      | None => Error "tune2fs: truncated output"
      end
    else Ok (listing (cmd_out c)).
Proof.
  intros c Hr Hn. rewrite do_tune2fs_l_run by done. fold c.
  by rewrite before_all.
Qed.

End tune2fs.

(** ** List attributes: [do_tune2fs_l] *)

Section list_attributes.
Implicit Types (w : world) (device : string) (banner body l k v ws : cstring)
  (ls : list cstring).

Lemma line_pair_no_colon l : ":"%char ∉ l → line_pair l = [l; []].
Proof. intros Hc. unfold line_pair. by rewrite after_none. Qed.

Lemma line_pair_colon k ws v :
  ":"%char ∉ k → Forall (λ x, c_isspace x = true) ws → starts_text v →
  line_pair (k ++ ":"%char :: ws ++ v) = [k; stored_value v].
Proof.
  intros Hc Hws Hv. unfold line_pair.
  by rewrite after_app, before_app, trim_left_app.
Qed.

Lemma unlines_no_nul ls : Forall text_line ls → NUL ∉ unlines ls.
Proof.
  induction 1 as [|l ls (_ & _ & Hn) _ IH]; [apply not_elem_of_nil|].
  unfold unlines in *. simpl. rewrite <-app_assoc. simpl.
  rewrite elem_of_app, elem_of_cons. intros [?|[?|?]]; done.
Qed.

Lemma flat_map_app_list {A B} (f : A → list B) (l1 l2 : list A) :
  flat_map f (l1 ++ l2) = flat_map f l1 ++ flat_map f l2.
Proof. induction l1 as [|x l1 IH]; simpl; [done|]. by rewrite IH, app_assoc. Qed.

Lemma banner_literal_plain : (LF ∉ lit "tune2fs ") ∧ (NUL ∉ lit "tune2fs ").
Proof. split; by apply (bool_decide_unpack _). Qed.

(** The output of a successful run that starts with a complete banner
    line: the banner goes, the body is listed. *)
Lemma tune2fs_l_banner_body w device banner body :
  let c := w_command w ["/sbin/tune2fs"; "-l"; device]%string in
  cmd_r c ≠ (-1)%Z →
  LF ∉ banner → NUL ∉ banner → NUL ∉ body →
  cmd_out c = lit "tune2fs " ++ banner ++ LF :: body →
  do_tune2fs_l w device = Ok (listing body).
Proof.
  intros c Hr Hlf Hnb Hn Hout.
  rewrite do_tune2fs_l_listing; fold c; [|done|].
  - rewrite bool_decide_eq_true_2 by (rewrite Hout; by eexists).
    rewrite Hout, app_assoc, after_app; [done|].
    rewrite elem_of_app. intros [Hin|Hin]; [|done].
    by apply banner_literal_plain in Hin.
  - rewrite Hout, !elem_of_app, elem_of_cons. intros [Hin|[?|[?|?]]]; try done.
    by apply banner_literal_plain in Hin.
Qed.

(** C1.  Given the output of a successful [tune2fs -l] that consists of
    a banner line and of non-blank lines, each ended by a newline,
    [do_tune2fs_l] drops the banner line and nothing else, and returns
    the key and the value of every following line, in the order of the
    lines.  A line without a colon gives itself as the key and the empty
    value; a line with one is split at its first colon, and its value is
    what follows the colon without its leading whitespace (stored as
    [stored_value] has it). *)
Theorem tune2fs_l_lists_lines_in_order w device banner ls :
  let c := w_command w ["/sbin/tune2fs"; "-l"; device]%string in
  cmd_r c ≠ (-1)%Z →
  LF ∉ banner → NUL ∉ banner → Forall text_line ls →
  cmd_out c = lit "tune2fs " ++ banner ++ LF :: unlines ls →
  do_tune2fs_l w device = Ok (flat_map line_pair ls) ∧
  (∀ l, ":"%char ∉ l → line_pair l = [l; []]) ∧
  (∀ k ws v,
     ":"%char ∉ k → Forall (λ x, c_isspace x = true) ws → starts_text v →
     line_pair (k ++ ":"%char :: ws ++ v) = [k; stored_value v]).
Proof.
  intros c Hr Hlf Hnb Hls Hout. split_and!.
  - rewrite (tune2fs_l_banner_body w device banner (unlines ls)); try done.
    + by rewrite listing_unlines.
    + by apply unlines_no_nul.
  - apply line_pair_no_colon.
  - apply line_pair_colon.
Qed.

(** What [do_tune2fs_l] does at a blank line: it returns the pairs of
    the lines in front of it, whatever follows. *)
Lemma tune2fs_l_stops_at_blank_line w device banner ls rest :
  let c := w_command w ["/sbin/tune2fs"; "-l"; device]%string in
  cmd_r c ≠ (-1)%Z →
  LF ∉ banner → NUL ∉ banner → Forall text_line ls → NUL ∉ rest →
  cmd_out c = lit "tune2fs " ++ banner ++ LF :: unlines ls ++ LF :: rest →
  do_tune2fs_l w device = Ok (flat_map line_pair ls).
Proof.
  intros c Hr Hlf Hnb Hls Hn Hout.
  rewrite (tune2fs_l_banner_body w device banner (unlines ls ++ LF :: rest));
    try done.
  - by rewrite listing_unlines_blank.
  - rewrite elem_of_app, elem_of_cons. intros [Hin|[?|?]]; try done.
    by apply unlines_no_nul in Hin.
Qed.

(** C3.  A run on an output with a blank line between two attribute
    lines: the listing ends at the blank line, and the attribute after
    it is missing from the result. *)
Theorem tune2fs_l_blank_line_cuts_listing :
  let out := unlines (map lit
    ["tune2fs 1.41.9 (22-Aug-2009)"; "Filesystem volume name: root";
     ""; "Block size: 4096"]%string) in
  do_tune2fs_l (world_with_output out) "/dev/sda1"
    = Ok (map lit ["Filesystem volume name"; "root"]%string) ∧
  flat_map line_pair (map lit
    ["Filesystem volume name: root"; "Block size: 4096"]%string)
    = map lit ["Filesystem volume name"; "root"; "Block size"; "4096"]%string.
Proof. split; reflexivity. Qed.

(** C4.  In a listing, the value of a line [key: value] is stored as the
    empty string when, its leading whitespace gone, it is [<none>],
    [<not available>] or [(none)], and as it stands otherwise. *)
Theorem tune2fs_l_none_spellings w device banner ls1 key ws v ls2 :
  let c := w_command w ["/sbin/tune2fs"; "-l"; device]%string in
  let line := key ++ ":"%char :: ws ++ v in
  cmd_r c ≠ (-1)%Z →
  LF ∉ banner → NUL ∉ banner →
  Forall text_line ls1 → Forall text_line ls2 → text_line line →
  ":"%char ∉ key → Forall (λ x, c_isspace x = true) ws → starts_text v →
  cmd_out c = lit "tune2fs " ++ banner ++ LF :: unlines (ls1 ++ line :: ls2) →
  do_tune2fs_l w device =
    Ok (flat_map line_pair ls1
        ++ [key;
            if bool_decide (v = lit "<none>" ∨ v = lit "<not available>"
                            ∨ v = lit "(none)")
            then [] else v]
        ++ flat_map line_pair ls2).
Proof.
  intros c line Hr Hlf Hnb Hls1 Hls2 Hline Hc Hws Hv Hout.
  assert (Hls : Forall text_line (ls1 ++ line :: ls2)).
  { apply Forall_app. split; [done|]. by constructor. }
  rewrite (tune2fs_l_banner_body w device banner _ Hr Hlf Hnb
             (unlines_no_nul _ Hls) Hout).
  rewrite listing_unlines by done.
  rewrite flat_map_app_list. simpl. unfold line.
  by rewrite line_pair_colon.
Qed.

(** C5.  An output that starts with [tune2fs ] has its first line
    discarded when that line ends in a newline: the result is the listing
    of what follows the line.  When no newline ends it, the call fails
    with the truncated-output error and returns no pairs.  (An output that
    starts otherwise is listed from its first line.) *)
Theorem tune2fs_l_discards_banner w device banner :
  let c := w_command w ["/sbin/tune2fs"; "-l"; device]%string in
  cmd_r c ≠ (-1)%Z → LF ∉ banner → NUL ∉ banner →
  (∀ body, NUL ∉ body →
     cmd_out c = lit "tune2fs " ++ banner ++ LF :: body →
     do_tune2fs_l w device = Ok (listing body)) ∧
  (cmd_out c = lit "tune2fs " ++ banner →
   do_tune2fs_l w device = Error "tune2fs: truncated output") ∧
  (¬ lit "tune2fs " `prefix_of` cmd_out c → NUL ∉ cmd_out c →
   do_tune2fs_l w device = Ok (listing (cmd_out c))).
Proof.
  intros c Hr Hlf Hnb. split_and!.
  - intros body Hn Hout. by apply (tune2fs_l_banner_body w device banner).
  - intros Hout. rewrite do_tune2fs_l_listing; fold c; [|done|].
    + rewrite bool_decide_eq_true_2 by (rewrite Hout; by eexists).
      rewrite after_none; [done|].
      rewrite Hout, elem_of_app. intros [Hin|Hin]; [|done].
      by apply banner_literal_plain in Hin.
    + rewrite Hout, elem_of_app. intros [Hin|Hin]; [|done].
      by apply banner_literal_plain in Hin.
  - intros Hno Hn. rewrite do_tune2fs_l_listing; fold c; [|done..].
    by rewrite bool_decide_eq_false_2.
Qed.

End list_attributes.

(** ** Get UUID: [do_get_e2uuid] *)

Section get_uuid.
Implicit Types (w : world) (device : string) (n h pre post ws rest run : cstring).

Lemma find_sub_absent n h : ¬ occurs n h → find_sub n h = None.
Proof.
  induction h as [|x h IH]; intros Hno; simpl.
  - rewrite bool_decide_eq_false_2; [done|].
    intros [k Hk]. apply Hno. by exists [], k.
  - rewrite bool_decide_eq_false_2.
    + rewrite IH; [done|]. intros (pre & post & ->).
      apply Hno. by exists (x :: pre), post.
    + intros [k Hk]. apply Hno. by exists [], k.
Qed.

Lemma find_sub_first n pre h : first_at n pre h → find_sub n h = Some (length pre).
Proof.
  intros [[post ->] Hmin]. induction pre as [|x pre IH]; simpl.
  - destruct (n ++ post) eqn:E; simpl;
      rewrite bool_decide_eq_true_2; try done; rewrite <-E; by eexists.
  - rewrite bool_decide_eq_false_2.
    + rewrite IH; [done|]. intros pre' post' E.
      specialize (Hmin (x :: pre') post'). simpl in Hmin.
      rewrite E in Hmin. specialize (Hmin eq_refl). lia.
    + intros [k Hk]. specialize (Hmin [] k Hk). simpl in Hmin. lia.
Qed.

Lemma find_sub_first_at n h k :
  find_sub n h = Some k → first_at n (take k h) h.
Proof.
  revert k. induction h as [|x h IH]; intros k; simpl.
  - case_bool_decide as Hp; [|done]. intros [= <-]. split.
    + destruct Hp as [post Hp]. by exists post.
    + intros. simpl. lia.
  - case_bool_decide as Hp.
    + intros [= <-]. split.
      * destruct Hp as [post Hp]. by exists post.
      * intros. simpl. lia.
    + destruct (find_sub n h) as [k'|] eqn:E; [|done]. intros [= <-].
      destruct (IH k' eq_refl) as [[post Hpost] Hmin]. split.
      * exists post. simpl. by f_equal.
      * intros [|y pre'] post' Heq.
        -- exfalso. apply Hp. by exists post'.
        -- simpl in Heq. injection Heq as -> Heq.
           specialize (Hmin _ _ Heq). simpl. lia.
Qed.

Lemma uuid_run_no_nul run : Forall (λ x, is_uuid_char x = true) run → NUL ∉ run.
Proof.
  intros Hrun Hn. rewrite Forall_forall in Hrun. by apply Hrun in Hn.
Qed.

(** The state of the scan once the marker is found and the whitespace
    behind it is skipped. *)
Lemma get_e2uuid_at_value w device pre ws rest :
  let c := w_command w ["/sbin/tune2fs"; "-l"; device]%string in
  let m := cmd_out c ++ [NUL] in
  let p := length pre + 17 + length ws in
  NUL ∉ cmd_out c →
  cmd_out c = pre ++ lit uuid_marker ++ ws ++ rest →
  first_at (lit uuid_marker) pre (cmd_out c) →
  Forall (λ x, c_isspace x = true) ws → starts_text rest →
  strstr m 0 uuid_marker = Some (length pre) ∧
  skip_while c_isspace m (length pre + 17) = p ∧
  drop p m = rest ++ [NUL].
Proof.
  intros c m p Hn Hout Hfirst Hws Hrest.
  assert (H0 : drop 0 m = cmd_out c ++ [NUL]) by done.
  assert (H1 : drop (length pre + 17) m = ws ++ rest ++ [NUL]).
  { rewrite Hout in H0. rewrite <-!app_assoc in H0.
    apply drop_view_app, (drop_view_app _ _ (lit uuid_marker)) in H0.
    by rewrite <-H0. }
  split_and!.
  - unfold strstr. rewrite (cstr_view m 0 (cmd_out c) []) by done.
    by rewrite (find_sub_first _ pre).
  - destruct rest as [|x rest']; simpl in H1.
    + apply (skip_while_view _ _ _ _ _ _ H1); [done | by apply space_not_nul | done].
    + apply (skip_while_view _ _ _ _ _ _ H1); [done | by apply space_not_nul |].
      simpl in Hrest. rewrite Hrest. apply orb_true_r.
  - by apply drop_view_app in H1.
Qed.

(** C2, as stated, does not hold.  In the first output the marker is
    there and the character behind the whitespace is [<], no hexadecimal
    digit and no hyphen: the run is empty, and the call succeeds with the
    empty string.  In the second the marker is there and a UUID follows
    the whitespace, up to the end of the output: the call fails. *)
Lemma get_e2uuid_empty_run_and_run_at_end :
  let out1 := unlines (map lit
    ["tune2fs 1.41.9 (22-Aug-2009)"; "Filesystem UUID:   <none>"]%string) in
  let uuid := lit "01234567-89ab-cdef-0123-456789abcdef" in
  let out2 := lit "tune2fs 1.41.9 (22-Aug-2009)"
              ++ lit uuid_marker ++ lit " " ++ uuid in
  (out1 = lit "tune2fs 1.41.9 (22-Aug-2009)"
          ++ lit uuid_marker ++ lit "   " ++ lit "<none>" ++ [LF] ∧
   is_uuid_char "<" = false ∧
   do_get_e2uuid (world_with_output out1) "/dev/sda1" = Ok []) ∧
  (Forall (λ x, is_uuid_char x = true) uuid ∧
   do_get_e2uuid (world_with_output out2) "/dev/sda1"
   = Error malformed_uuid_msg).
Proof.
  split; split_and!; try reflexivity. by repeat constructor.
Qed.

(** C2, amended.  On the output of a successful [tune2fs -l],
    [do_get_e2uuid] fails with an error of its own when the marker, a
    newline and [Filesystem UUID:], does not occur.  Otherwise it goes to
    the first occurrence and skips the whitespace behind it; it fails
    with the malformed-UUID error when nothing follows the whitespace,
    and when the run of hexadecimal digits and hyphens that follows
    reaches the end of the output; when another character ends the run,
    it succeeds and returns exactly the run, which may be empty. *)
Theorem get_e2uuid_scan w device :
  let c := w_command w ["/sbin/tune2fs"; "-l"; device]%string in
  cmd_r c ≠ (-1)%Z → NUL ∉ cmd_out c →
  (¬ occurs (lit uuid_marker) (cmd_out c) →
   do_get_e2uuid w device = Error no_uuid_msg) ∧
  (∀ pre tl,
     cmd_out c = pre ++ lit uuid_marker ++ tl →
     first_at (lit uuid_marker) pre (cmd_out c) →
     let rest := trim_left tl in
     (rest = [] → do_get_e2uuid w device = Error malformed_uuid_msg) ∧
     (rest ≠ [] → Forall (λ x, is_uuid_char x = true) rest →
      do_get_e2uuid w device = Error malformed_uuid_msg) ∧
     (∀ run x tail,
        rest = run ++ x :: tail →
        Forall (λ x, is_uuid_char x = true) run → is_uuid_char x = false →
        do_get_e2uuid w device = Ok run)) ∧
  (no_uuid_msg ≠ malformed_uuid_msg ∧
   ∀ err, no_uuid_msg ≠ "tune2fs -l: " +:+ err).
Proof.
  intros c Hr Hn. apply Z.eqb_neq in Hr. split_and!; [| |done|discriminate].
  - intros Hno. unfold do_get_e2uuid. fold c. rewrite Hr.
    unfold strstr. rewrite (cstr_view _ 0 (cmd_out c) []) by done.
    by rewrite find_sub_absent.
  - intros pre tl Hout Hfirst rest.
    destruct (trim_split tl) as (ws & Htl & Hws & Hrest). fold rest in Htl, Hrest.
    rewrite Htl in Hout.
    destruct (get_e2uuid_at_value w device pre ws rest Hn Hout Hfirst Hws Hrest)
      as (Hstr & Hskip & Hdrop). fold c in Hstr, Hskip, Hdrop.
    unfold do_get_e2uuid. fold c. rewrite Hr, Hstr, Hskip.
    set (m := cmd_out c ++ [NUL]) in *.
    set (p := length pre + 17 + length ws) in *.
    clearbody rest. split_and!.
    + intros ->. by rewrite (load_view _ _ _ _ Hdrop).
    + intros Hne Hrun. destruct rest as [|x rest'] eqn:E; [done|].
      rewrite <-E in *.
      assert (load m p = x) as ->
        by (rewrite E in Hdrop; by apply (load_view _ _ _ _ Hdrop)).
      assert (Hnr : NUL ∉ rest) by (by apply uuid_run_no_nul).
      rewrite (is_nul_false x rest') by (by rewrite <-E).
      rewrite (skip_while_view _ _ _ _ _ _ Hdrop) by done.
      by rewrite (load_view_app _ _ _ _ _ Hdrop).
    + intros run x tail -> Hrun Hx.
      assert (Hnx : is_nul x = false).
      { apply Ascii.eqb_neq. intros ->. apply Hn. rewrite Hout.
        rewrite !elem_of_app, elem_of_cons. tauto. }
      assert (Hnrun : NUL ∉ run) by (by apply uuid_run_no_nul).
      rewrite <-app_assoc in Hdrop. simpl in Hdrop.
      assert (is_nul (load m p) = false) as ->.
      { destruct run as [|y run']; simpl in Hdrop;
          rewrite (load_view _ _ _ _ Hdrop); [done|].
        by eapply is_nul_false. }
      rewrite (skip_while_view _ _ _ _ _ _ Hdrop)
        by (done || (rewrite Hnx, Hx; done)).
      rewrite (load_view_app _ _ _ _ _ Hdrop), Hnx.
      apply (store_view _ _ _ _ NUL) in Hdrop.
      by rewrite (cstr_view _ _ _ _ Hdrop).
Qed.

End get_uuid.

(** ** Resolving the mke2fs binary: [get_mke2fs] *)

Section mke2fs.
Implicit Types (w : world) (fstype device jref : string) (blocksize : Z).

Lemma mke2fs_journal_not_found name jprefix w fstype blocksize device jref :
  get_mke2fs w = (None, [EvReplyError no_mke2fs_msg]) →
  mke2fs_with_journal name jprefix w fstype blocksize device jref
  = ((-1)%Z, [EvReplyError no_mke2fs_msg]).
Proof. intros H. unfold mke2fs_with_journal. by rewrite H. Qed.

Lemma mke2fs_journal_found name jprefix w prog fstype blocksize device jref :
  get_mke2fs w = (Some prog, []) →
  commands_run (snd (mke2fs_with_journal name jprefix w fstype blocksize device jref))
  = [[prog; "-t"; fstype; "-J"; jprefix +:+ jref; "-b";
      string_of_int blocksize; device]%string].
Proof.
  intros H. unfold mke2fs_with_journal. rewrite H.
  by destruct (cmd_r _ =? -1)%Z.
Qed.

(** C9.  [get_mke2fs] gives [/sbin/mke4fs] whenever that path exists,
    [/sbin/mke2fs] when only that one exists, and nothing, after replying
    with an error of its own, when neither exists.  The operations that
    create a filesystem with an external journal run the binary it gives
    and no other; when it gives none they return [-1] with that error
    and run no command. *)
Theorem get_mke2fs_resolution w :
  (w_access w "/sbin/mke4fs" = 0%Z →
   get_mke2fs w = (Some "/sbin/mke4fs"%string, [])) ∧
  (w_access w "/sbin/mke4fs" ≠ 0%Z → w_access w "/sbin/mke2fs" = 0%Z →
   get_mke2fs w = (Some "/sbin/mke2fs"%string, [])) ∧
  (w_access w "/sbin/mke4fs" ≠ 0%Z → w_access w "/sbin/mke2fs" ≠ 0%Z →
   get_mke2fs w = (None, [EvReplyError no_mke2fs_msg]) ∧
   ∀ fstype blocksize device jref,
     let failed := ((-1)%Z, [EvReplyError no_mke2fs_msg]) in
     do_mke2fs_J w fstype blocksize device jref = failed ∧
     do_mke2fs_JL w fstype blocksize device jref = failed ∧
     do_mke2fs_JU w fstype blocksize device jref = failed) ∧
  (∀ prog fstype blocksize device jref,
     get_mke2fs w = (Some prog, []) →
     commands_run (snd (do_mke2fs_J w fstype blocksize device jref))
     = [[prog; "-t"; fstype; "-J"; "device=" +:+ jref; "-b";
         string_of_int blocksize; device]%string]) ∧
  (∀ err,
     no_mke2fs_msg ≠ "mke2fs_J: " +:+ err ∧
     no_mke2fs_msg ≠ "mke2fs_JL: " +:+ err ∧
     no_mke2fs_msg ≠ "mke2fs_JU: " +:+ err).
Proof.
  unfold get_mke2fs. simpl. split_and!.
  - intros H. apply Z.eqb_eq in H. by rewrite H.
  - intros H4 H2. apply Z.eqb_neq in H4. apply Z.eqb_eq in H2.
    by rewrite H4, H2.
  - intros H4 H2. apply Z.eqb_neq in H4, H2.
    assert (Hget : get_mke2fs w = (None, [EvReplyError no_mke2fs_msg])).
    { unfold get_mke2fs. simpl. by rewrite H4, H2. }
    split; [unfold get_mke2fs in Hget; apply Hget|].
    intros. split_and!; by apply mke2fs_journal_not_found.
  - intros prog fstype blocksize device jref Hget.
    by apply mke2fs_journal_found.
  - intros err. split_and!; discriminate.
Qed.

End mke2fs.

(** ** Creating a filesystem: [do_mkfs_opts] *)

Section mkfs.
Implicit Types (w : world) (stack : nat → option string)
  (optargs_bitmask blocksize : Z) (fstype device : string).
Local Open Scope Z_scope.

(** Runs the monadic code on a frame whose cursor is known. *)
Ltac run_mkfs :=
  cbv [call do_mkfs_opts do_mkfs do_mkfs_b entry mbind M_bind bind ret mret
       M_ret when push get_i log reply_with_error blockdev_getss int_div
       commandv return_ abort argv i trace MAX_ARGS Nat.ltb Nat.leb seq map
       insert list_insert argv_strings app fst snd
       negb orb andb commands_run head mkfs_accepts cluster_ok
       blocksize_given mkfs_args blocksize_args is_fat].

Ltac streq_compute :=
  repeat match goal with
  | |- context [STREQ ?a ?b] =>
      let v := eval vm_compute in (STREQ a b) in change (STREQ a b) with v
  end.

(** One case for each filesystem type the code tests for, and one for
    all the others. *)
Ltac fstype_cases fstype :=
  repeat match goal with
  | |- context [STREQ fstype ?b] =>
      destruct (String.eqb_spec fstype b) as [->|?];
      [ | replace (STREQ fstype b) with false
            by (symmetry; by apply String.eqb_neq) ]
  end;
  streq_compute.

Ltac branch_atom :=
  match goal with
  | |- context [Z.eqb ?a ?b] => destruct (Z.eqb a b) eqn:?
  | |- context [Z.leb ?a ?b] => destruct (Z.leb a b) eqn:?
  | |- context [Z.ltb ?a ?b] => destruct (Z.ltb a b) eqn:?
  | |- context [is_power_of_2 ?a] => destruct (is_power_of_2 a) eqn:?
  end; run_mkfs.

Ltac arith :=
  repeat match goal with
  | H : (_ =? _) = true |- _ => apply Z.eqb_eq in H
  | H : (_ =? _) = false |- _ => apply Z.eqb_neq in H
  | H : (_ <=? _) = true |- _ => apply Z.leb_le in H
  | H : (_ <=? _) = false |- _ => apply Z.leb_gt in H
  | H : (_ <? _) = true |- _ => apply Z.ltb_lt in H
  | H : (_ <? _) = false |- _ => apply Z.ltb_ge in H
  end;
  unfold INT_MIN in *.

Lemma is_power_of_2_spec v : is_power_of_2 v = true ↔ ∃ k, 0 ≤ k ∧ v = 2 ^ k.
Proof.
  unfold is_power_of_2. rewrite andb_true_iff, Z.ltb_lt, Z.eqb_eq. split.
  - intros [Hpos Hv]. exists (Z.log2 v). split; [apply Z.log2_nonneg | done].
  - intros (k & Hk & ->). split; [by apply Z.pow_pos_nonneg|].
    by rewrite Z.log2_pow2.
Qed.

Lemma colon_in_app (a b : string) :
  ":"%char ∈ list_ascii_of_string (a +:+ String ":" b).
Proof.
  induction a as [|x a IH]; simpl; [left | by right].
Qed.

Lemma blocksize_msg_distinct fstype device blocksize sectorsize spc err :
  blocksize_msg ≠ cluster_msg fstype blocksize sectorsize spc ∧
  blocksize_msg ≠ fstype +:+ ": " +:+ device +:+ ": " +:+ err.
Proof.
  split; [discriminate|]. intros H.
  assert (Hno : ":"%char ∉ list_ascii_of_string blocksize_msg)
    by (by apply (bool_decide_unpack _)).
  apply Hno. rewrite H. apply colon_in_app.
Qed.

(** C6.  When the block size is supplied, a value that is not positive
    or not a power of two makes [do_mkfs_opts] return [-1] having done
    nothing but reply with the block-size error: no sector size is
    asked for and no command is run.  A power of two passes: the first
    thing the call does is ask for the sector size, for the FAT family,
    or run [mkfs] with the block size among its arguments.  The error is
    none of the other errors of the call. *)
Theorem mkfs_blocksize_validation w stack optargs_bitmask fstype device blocksize :
  let r := call (do_mkfs_opts w optargs_bitmask fstype device blocksize) stack in
  Z.land optargs_bitmask GUESTFS_MKFS_OPTS_BLOCKSIZE_BITMASK ≠ 0 →
  (blocksize ≤ 0 ∨ ¬ (∃ k, 0 ≤ k ∧ blocksize = 2 ^ k) →
   fst r = Return (-1) ∧ trace (snd r) = [EvReplyError blocksize_msg]) ∧
  ((∃ k, 0 ≤ k ∧ blocksize = 2 ^ k) →
   head (trace (snd r)) =
     Some (if is_fat fstype then EvBlockdevGetss device
           else EvCommand (mkfs_args w true fstype device blocksize))) ∧
  (∀ sectorsize spc err,
     blocksize_msg ≠ cluster_msg fstype blocksize sectorsize spc ∧
     blocksize_msg ≠ fstype +:+ ": " +:+ device +:+ ": " +:+ err).
Proof.
  intros r Hflag. apply Z.eqb_neq in Hflag. subst r. split_and!.
  - intros Hbad.
    assert (Hv : (blocksize <=? 0) || negb (is_power_of_2 blocksize) = true).
    { destruct Hbad as [Hle|Hno].
      - apply Z.leb_le in Hle. by rewrite Hle.
      - rewrite <-is_power_of_2_spec in Hno. apply not_true_is_false in Hno.
        rewrite Hno. apply orb_true_r. }
    unfold call, do_mkfs_opts. rewrite Hflag, Hv.
    fstype_cases fstype; run_mkfs; done.
  - intros Hpow. assert (Hpos : 0 < blocksize).
    { destruct Hpow as (k & Hk & ->). by apply Z.pow_pos_nonneg. }
    apply is_power_of_2_spec in Hpow. apply Z.leb_gt in Hpos.
    unfold call, do_mkfs_opts, mkfs_args, blocksize_args, is_fat.
    rewrite Hflag, Hpos, Hpow.
    fstype_cases fstype; run_mkfs; repeat branch_atom; done.
  - intros. apply blocksize_msg_distinct.
Qed.

(** C7.  For [vfat] and [msdos] with a block size that passed the
    validation (it is positive and [is_power_of_2] accepts it), and a
    sector size that the device reported,
    [do_mkfs_opts] divides the block size by the sector size.  A quotient
    below 1 or above 128 makes it return [-1] having run no command and
    replied with one error, whose text names, in decimal, the block size
    as the requested cluster size, the sector size and the quotient as
    the sectors per cluster; otherwise the one command it runs is [mkfs
    -t fstype -s quotient device], the quotient in decimal. *)
Theorem mkfs_fat_cluster_size w stack optargs_bitmask fstype device blocksize :
  let r := call (do_mkfs_opts w optargs_bitmask fstype device blocksize) stack in
  let sectorsize := w_blockdev_getss w device in
  let sectors_per_cluster := Z.quot blocksize sectorsize in
  let decimal n := NilZero.string_of_int (Z.to_int n) in
  Z.land optargs_bitmask GUESTFS_MKFS_OPTS_BLOCKSIZE_BITMASK ≠ 0 →
  fstype = "vfat"%string ∨ fstype = "msdos"%string →
  0 < blocksize → is_power_of_2 blocksize = true →
  sectorsize ≠ -1 → sectorsize ≠ 0 →
  (sectors_per_cluster < 1 ∨ 128 < sectors_per_cluster →
   fst r = Return (-1) ∧
   trace (snd r) =
     [EvBlockdevGetss device;
      EvReplyError
        ("unsupported cluster size for " +:+ fstype
         +:+ " filesystem (requested cluster size = " +:+ decimal blocksize
         +:+ ", sector size = " +:+ decimal sectorsize
         +:+ ", trying sectors per cluster = "
         +:+ decimal sectors_per_cluster +:+ ")")]) ∧
  (1 ≤ sectors_per_cluster ≤ 128 →
   commands_run (trace (snd r)) =
     [["mkfs"; "-t"; fstype; "-s"; decimal sectors_per_cluster;
       device]%string]).
Proof.
  intros r sectorsize spc decimal Hflag Hfat Hpos Hpow Hss1 Hss0.
  subst r spc sectorsize decimal. unfold call, do_mkfs_opts. rewrite Hpow.
  unfold cluster_msg, string_of_int.
  split; intros Hrange.
  all: destruct Hfat as [-> | ->]; streq_compute; run_mkfs;
    repeat branch_atom; try done.
  all: arith; lia.
Qed.

(** C8.  Whatever the filesystem type, the device and the block size,
    [do_mkfs_opts] runs one command, when the request passes its checks,
    and none otherwise; the command is [mkfs -t fstype], then [-Q] for
    [ntfs], then [-f] for [reiserfs] and [jfs], then [-p lock_nolock -j 1
    -O] for [gfs] and [gfs2], then the block-size flag and its argument
    if a block size was supplied, then the device. *)
Theorem mkfs_argument_order w stack optargs_bitmask fstype device blocksize :
  let r := call (do_mkfs_opts w optargs_bitmask fstype device blocksize) stack in
  commands_run (trace (snd r)) =
    if mkfs_accepts w optargs_bitmask fstype device blocksize
    then [mkfs_args w (blocksize_given optargs_bitmask) fstype device blocksize]
    else [].
Proof.
  intros r. subst r.
  unfold call, do_mkfs_opts, mkfs_accepts, cluster_ok, blocksize_given,
    mkfs_args, blocksize_args, is_fat.
  fstype_cases fstype; run_mkfs; repeat branch_atom; try done.
  all: arith; lia.
Qed.

(** C10.  Whatever its arguments, [do_mkfs_opts] leaves the cursor of
    [argv] at 12 or less, the terminating NULL counted, which is within
    the [MAX_ARGS] slots: it never aborts, and never stores outside
    [argv] (the one way it has to go wrong is a division by a sector
    size of zero). *)
Theorem mkfs_argv_within_bounds w stack optargs_bitmask fstype device blocksize :
  let r := call (do_mkfs_opts w optargs_bitmask fstype device blocksize) stack in
  (i (snd r) ≤ 12)%nat ∧ (12 ≤ MAX_ARGS)%nat ∧ fst r ≠ Abort ∧
  (fst r = Undefined → w_blockdev_getss w device = 0).
Proof.
  intros r. subst r. unfold call, do_mkfs_opts.
  fstype_cases fstype; run_mkfs; repeat branch_atom;
    (split_and!; [lia | lia | done | try done]).
  all: intros _; arith; lia.
Qed.

(** The bound of C10 is reached: [gfs2] with a block size fills twelve
    slots. *)
Example mkfs_argv_twelve :
  snd (call (do_mkfs_b (world_with_sectors 512) "gfs2" 4096 "/dev/sda1")
         (λ _, None))
  = Frame
      ([Some "mkfs"; Some "-t"; Some "gfs2"; Some "-p"; Some "lock_nolock";
        Some "-j"; Some "1"; Some "-O"; Some "-b"; Some "4096";
        Some "/dev/sda1"; None]%string ++ replicate 4 None)
      12
      [EvCommand ["mkfs"; "-t"; "gfs2"; "-p"; "lock_nolock"; "-j"; "1";
                  "-O"; "-b"; "4096"; "/dev/sda1"]%string].
Proof. reflexivity. Qed.

End mkfs.

(** ** The theorems at work on concrete runs *)

Section runs.
Local Open Scope Z_scope.

Ltac concrete := by (apply (bool_decide_unpack _) || lia || discriminate).
Ltac given H := split; [exact H|].

Lemma tune2fs_l_lists_lines_in_order_witness :
  let banner := lit "1.41.9 (22-Aug-2009)" in
  let ls := map lit ["Filesystem volume name:   <none>";
                     "Block size:               4096";
                     "Journal backup"]%string in
  let w := world_with_output (lit "tune2fs " ++ banner ++ LF :: unlines ls) in
  cmd_r (w_command w ["/sbin/tune2fs"; "-l"; "/dev/sda1"]%string) ≠ -1 ∧
  (LF ∉ banner) ∧ (NUL ∉ banner) ∧ Forall text_line ls ∧
  do_tune2fs_l w "/dev/sda1"
  = Ok (map lit ["Filesystem volume name"; ""; "Block size"; "4096";
                 "Journal backup"; ""]%string).
Proof.
  intros banner ls w.
  assert (Hr : cmd_r (w_command w ["/sbin/tune2fs"; "-l"; "/dev/sda1"]%string) ≠ -1)
    by concrete.
  assert (Hlf : LF ∉ banner) by concrete.
  assert (Hn : NUL ∉ banner) by concrete.
  assert (Hls : Forall text_line ls)
    by (repeat constructor; concrete).
  given Hr. given Hlf. given Hn. given Hls.
  exact (proj1 (tune2fs_l_lists_lines_in_order w "/dev/sda1" banner ls
                  Hr Hlf Hn Hls eq_refl)).
Defined.

Lemma tune2fs_l_none_spellings_witness :
  let banner := lit "1.41.9 (22-Aug-2009)" in
  let ls1 := map lit ["Filesystem volume name:   root"]%string in
  let ls2 := map lit ["Block size:               4096"]%string in
  let key := lit "Last mounted on" in
  let ws := lit "          " in
  let v := lit "<not available>" in
  let w := world_with_output
    (lit "tune2fs " ++ banner ++ LF
     :: unlines (ls1 ++ (key ++ ":"%char :: ws ++ v) :: ls2)) in
  cmd_r (w_command w ["/sbin/tune2fs"; "-l"; "/dev/sda1"]%string) ≠ -1 ∧
  (LF ∉ banner) ∧ (NUL ∉ banner) ∧
  Forall text_line ls1 ∧ Forall text_line ls2 ∧
  text_line (key ++ ":"%char :: ws ++ v) ∧
  (":"%char ∉ key) ∧ Forall (λ x, c_isspace x = true) ws ∧ starts_text v ∧
  do_tune2fs_l w "/dev/sda1"
  = Ok (map lit ["Filesystem volume name"; "root"; "Last mounted on"; "";
                 "Block size"; "4096"]%string).
Proof.
  intros banner ls1 ls2 key ws v w.
  assert (Hr : cmd_r (w_command w ["/sbin/tune2fs"; "-l"; "/dev/sda1"]%string) ≠ -1)
    by concrete.
  assert (Hlf : LF ∉ banner) by concrete.
  assert (Hn : NUL ∉ banner) by concrete.
  assert (Hls1 : Forall text_line ls1) by (repeat constructor; concrete).
  assert (Hls2 : Forall text_line ls2) by (repeat constructor; concrete).
  assert (Hline : text_line (key ++ ":"%char :: ws ++ v))
    by (repeat constructor; concrete).
  assert (Hkey : ":"%char ∉ key) by concrete.
  assert (Hws : Forall (λ x, c_isspace x = true) ws) by (by repeat constructor).
  assert (Hv : starts_text v) by done.
  given Hr. given Hlf. given Hn. given Hls1. given Hls2. given Hline.
  given Hkey. given Hws. given Hv.
  exact (tune2fs_l_none_spellings w "/dev/sda1" banner ls1 key ws v ls2
           Hr Hlf Hn Hls1 Hls2 Hline Hkey Hws Hv eq_refl).
Defined.

Lemma tune2fs_l_discards_banner_witness :
  let banner := lit "1.41.9 (22-Aug-2009)" in
  let w := world_with_output (lit "tune2fs " ++ banner) in
  cmd_r (w_command w ["/sbin/tune2fs"; "-l"; "/dev/sda1"]%string) ≠ -1 ∧
  (LF ∉ banner) ∧ (NUL ∉ banner) ∧
  do_tune2fs_l w "/dev/sda1" = Error "tune2fs: truncated output".
Proof.
  intros banner w.
  assert (Hr : cmd_r (w_command w ["/sbin/tune2fs"; "-l"; "/dev/sda1"]%string) ≠ -1)
    by concrete.
  assert (Hlf : LF ∉ banner) by concrete.
  assert (Hn : NUL ∉ banner) by concrete.
  given Hr. given Hlf. given Hn.
  exact (proj1 (proj2 (tune2fs_l_discards_banner w "/dev/sda1" banner Hr Hlf Hn))
           eq_refl).
Defined.

Lemma get_e2uuid_scan_witness :
  let pre := lit "tune2fs 1.41.9 (22-Aug-2009)" ++ LF
             :: lit "Filesystem volume name:   <none>" in
  let run := lit "01234567-89ab-cdef-0123-456789abcdef" in
  let tail := lit "Block size:               4096" ++ [LF] in
  let tl := lit "          " ++ run ++ LF :: tail in
  let out := pre ++ lit uuid_marker ++ tl in
  let w := world_with_output out in
  cmd_r (w_command w ["/sbin/tune2fs"; "-l"; "/dev/sda1"]%string) ≠ -1 ∧
  (NUL ∉ out) ∧
  first_at (lit uuid_marker) pre out ∧
  trim_left tl = run ++ LF :: tail ∧
  Forall (λ x, is_uuid_char x = true) run ∧
  do_get_e2uuid w "/dev/sda1" = Ok run.
Proof.
  intros pre run tail tl out w.
  assert (Hr : cmd_r (w_command w ["/sbin/tune2fs"; "-l"; "/dev/sda1"]%string) ≠ -1)
    by concrete.
  assert (Hn : NUL ∉ out) by concrete.
  assert (Hfirst : first_at (lit uuid_marker) pre out)
    by (by apply (find_sub_first_at _ out (length pre))).
  assert (Htl : trim_left tl = run ++ LF :: tail) by done.
  assert (Hrun : Forall (λ x, is_uuid_char x = true) run) by (by repeat constructor).
  given Hr. given Hn. given Hfirst. given Htl. given Hrun.
  destruct (get_e2uuid_scan w "/dev/sda1" Hr Hn) as (_ & Hfound & _).
  destruct (Hfound pre tl eq_refl Hfirst) as (_ & _ & Hok).
  exact (Hok run LF tail Htl Hrun eq_refl).
Defined.

Lemma get_mke2fs_resolution_witness :
  let w := world_with_files ["/sbin/mke4fs"; "/sbin/mke2fs"]%string in
  w_access w "/sbin/mke4fs" = 0 ∧
  get_mke2fs w = (Some "/sbin/mke4fs"%string, []).
Proof.
  intros w. assert (H4 : w_access w "/sbin/mke4fs" = 0) by done.
  given H4.
  exact (proj1 (get_mke2fs_resolution w) H4).
Defined.

Lemma mkfs_blocksize_validation_witness :
  let w := world_with_sectors 512 in
  let r := call (do_mkfs_b w "ext3" 3000 "/dev/sda1") (λ _, None) in
  Z.land GUESTFS_MKFS_OPTS_BLOCKSIZE_BITMASK GUESTFS_MKFS_OPTS_BLOCKSIZE_BITMASK ≠ 0 ∧
  ¬ (∃ k, 0 ≤ k ∧ 3000 = 2 ^ k) ∧
  fst r = Return (-1) ∧ trace (snd r) = [EvReplyError blocksize_msg].
Proof.
  intros w r.
  assert (Hflag : Z.land GUESTFS_MKFS_OPTS_BLOCKSIZE_BITMASK
                    GUESTFS_MKFS_OPTS_BLOCKSIZE_BITMASK ≠ 0) by done.
  assert (Hno : ¬ (∃ k, 0 ≤ k ∧ 3000 = 2 ^ k)).
  { intros Hk. by apply is_power_of_2_spec in Hk. }
  given Hflag. given Hno.
  exact (proj1 (mkfs_blocksize_validation w (λ _, None) _ "ext3" "/dev/sda1"
                  3000 Hflag) (or_intror Hno)).
Defined.

Lemma mkfs_fat_cluster_size_witness :
  let w := world_with_sectors 512 in
  let r := call (do_mkfs_b w "vfat" 8192 "/dev/sda1") (λ _, None) in
  let r' := call (do_mkfs_b w "msdos" 131072 "/dev/sda1") (λ _, None) in
  Z.land GUESTFS_MKFS_OPTS_BLOCKSIZE_BITMASK GUESTFS_MKFS_OPTS_BLOCKSIZE_BITMASK ≠ 0 ∧
  w_blockdev_getss w "/dev/sda1" ≠ -1 ∧ w_blockdev_getss w "/dev/sda1" ≠ 0 ∧
  (0 < 8192 ∧ is_power_of_2 8192 = true ∧
   1 ≤ Z.quot 8192 (w_blockdev_getss w "/dev/sda1") ≤ 128 ∧
   commands_run (trace (snd r))
   = [["mkfs"; "-t"; "vfat"; "-s"; "16"; "/dev/sda1"]%string]) ∧
  (0 < 131072 ∧ is_power_of_2 131072 = true ∧
   128 < Z.quot 131072 (w_blockdev_getss w "/dev/sda1") ∧
   fst r' = Return (-1) ∧
   trace (snd r')
   = [EvBlockdevGetss "/dev/sda1";
      EvReplyError
        "unsupported cluster size for msdos filesystem (requested cluster size = 131072, sector size = 512, trying sectors per cluster = 256)"]).
Proof.
  intros w r r'.
  assert (Hflag : Z.land GUESTFS_MKFS_OPTS_BLOCKSIZE_BITMASK
                    GUESTFS_MKFS_OPTS_BLOCKSIZE_BITMASK ≠ 0) by done.
  assert (Hss1 : w_blockdev_getss w "/dev/sda1" ≠ -1) by done.
  assert (Hss0 : w_blockdev_getss w "/dev/sda1" ≠ 0) by done.
  given Hflag. given Hss1. given Hss0. split.
  - assert (Hpos : 0 < 8192) by done.
    assert (Hpow : is_power_of_2 8192 = true) by done.
    assert (Hspc : 1 ≤ Z.quot 8192 (w_blockdev_getss w "/dev/sda1") ≤ 128) by done.
    given Hpos. given Hpow. given Hspc.
    exact (proj2 (mkfs_fat_cluster_size w (λ _, None) _ "vfat" "/dev/sda1" 8192
                    Hflag (or_introl eq_refl) Hpos Hpow Hss1 Hss0) Hspc).
  - assert (Hpos : 0 < 131072) by done.
    assert (Hpow : is_power_of_2 131072 = true) by done.
    assert (Hspc : 128 < Z.quot 131072 (w_blockdev_getss w "/dev/sda1")) by done.
    given Hpos. given Hpow. given Hspc.
    exact (proj1 (mkfs_fat_cluster_size w (λ _, None) _ "msdos" "/dev/sda1" 131072
                    Hflag (or_intror eq_refl) Hpos Hpow Hss1 Hss0)
             (or_intror Hspc)).
Defined.

Lemma mkfs_argv_within_bounds_witness :
  let w := world_with_sectors 0 in
  let r := call (do_mkfs_b w "msdos" 4096 "/dev/sda1") (λ _, None) in
  fst r = Undefined ∧ w_blockdev_getss w "/dev/sda1" = 0.
Proof.
  intros w r. assert (Hu : fst r = Undefined) by done. given Hu.
  exact (proj2 (proj2 (proj2
    (mkfs_argv_within_bounds w (λ _, None) _ "msdos" "/dev/sda1" 4096))) Hu).
Defined.

(** The three cases of the resolution, and what [do_mke2fs_J] runs. *)
Example get_mke2fs_examples :
  get_mke2fs (world_with_files ["/sbin/mke2fs"; "/sbin/mke4fs"]%string)
    = (Some "/sbin/mke4fs"%string, []) ∧
  get_mke2fs (world_with_files ["/sbin/mke2fs"]%string)
    = (Some "/sbin/mke2fs"%string, []) ∧
  get_mke2fs (world_with_files []) = (None, [EvReplyError no_mke2fs_msg]) ∧
  do_mke2fs_J (world_with_files []) "ext4" 4096 "/dev/sda1" "/dev/sdb1"
    = (-1, [EvReplyError no_mke2fs_msg]) ∧
  do_mke2fs_JL (world_with_files ["/sbin/mke4fs"]%string)
      "ext4" 4096 "/dev/sda1" "JOURNAL"
    = (0, [EvCommand ["/sbin/mke4fs"; "-t"; "ext4"; "-J";
                      "device=LABEL=JOURNAL"; "-b"; "4096";
                      "/dev/sda1"]%string]).
Proof. by split_and!. Qed.

(** The examples that the specification gives for the validation, the
    cluster size and the flags of [ntfs] and [gfs2]. *)
Example mkfs_examples :
  let run c := commands_run (trace (snd (call c (λ _, None)))) in
  map is_power_of_2 [512; 4096; 65536; 0; -4096; 3000]
    = [true; true; true; false; false; false] ∧
  run (do_mkfs_b (world_with_sectors 4096) "vfat" 8192 "/dev/sda1")
    = [["mkfs"; "-t"; "vfat"; "-s"; "2"; "/dev/sda1"]%string] ∧
  run (do_mkfs_b (world_with_sectors 512) "msdos" 131072 "/dev/sda1") = [] ∧
  run (do_mkfs (world_with_sectors 512) "ntfs" "/dev/sda1")
    = [["mkfs"; "-t"; "ntfs"; "-Q"; "/dev/sda1"]%string] ∧
  run (do_mkfs_b (world_with_sectors 512) "ntfs" 4096 "/dev/sda1")
    = [["mkfs"; "-t"; "ntfs"; "-Q"; "-c"; "4096"; "/dev/sda1"]%string] ∧
  run (do_mkfs (world_with_sectors 512) "gfs2" "/dev/sda1")
    = [["mkfs"; "-t"; "gfs2"; "-p"; "lock_nolock"; "-j"; "1"; "-O";
        "/dev/sda1"]%string].
Proof. by split_and!. Qed.

End runs.

(** * Further properties *)

(** ** List attributes, on any output *)

Section list_attributes_more.
Implicit Types (w : world) (device : string) (s l k v : cstring) (ls : list cstring).


Lemma lines_elem s l : l ∈ lines s → (LF ∉ l) ∧ ∀ x, x ∈ l → x ∈ s.
Proof.
  revert l. induction s as [|x s IH]; intros l; simpl.
  - intros ->%list_elem_of_singleton. split; [apply not_elem_of_nil|done].
  - destruct (Ascii.eqb_spec x LF) as [Hx|Hx].
    + intros [->|Hin]%elem_of_cons.
      * split; [apply not_elem_of_nil|]. by intros y Hy%not_elem_of_nil.
      * destruct (IH l Hin) as [H1 H2]. split; [done|].
        intros y Hy. right. by apply H2.
    + destruct (lines s) as [|l0 ls] eqn:E.
      * intros ->%list_elem_of_singleton. split.
        -- intros Heq%list_elem_of_singleton. congruence.
        -- intros y ->%list_elem_of_singleton. left.
      * intros [->|Hin]%elem_of_cons.
        -- destruct (IH l0) as [H1 H2]; [left|]. split.
           ++ intros [?|?]%elem_of_cons; [congruence|done].
           ++ intros y [->|Hy]%elem_of_cons; [left|right; by apply H2].
        -- destruct (IH l) as [H1 H2]; [by right|]. split; [done|].
           intros y Hy. right. by apply H2.
Qed.

Lemma upto_blank_elem ls l : l ∈ upto_blank ls → l ∈ ls.
Proof.
  induction ls as [|l0 ls IH]; simpl; [done|].
  destruct l0 as [|x l0]; [by intros ?%not_elem_of_nil|].
  intros [->|Hin]%elem_of_cons; [left|right; auto].
Qed.

Lemma stored_value_shape v :
  starts_text v → (LF ∉ v) → (NUL ∉ v) → attribute_value (stored_value v).
Proof.
  intros Hs Hlf Hn. unfold stored_value.
  destruct (none_spelling v) eqn:E.
  - split_and!; [done | done | apply not_elem_of_nil..].
  - by split_and!.
Qed.

Lemma line_pair_shape l :
  LF ∉ l → NUL ∉ l →
  ∃ k v, line_pair l = [k; v] ∧ attribute_key k ∧ attribute_value v.
Proof.
  intros Hlf Hn. unfold line_pair.
  destruct (first_split ":" l) as [(Hc & -> & _) | (k & r & -> & Hc & -> & ->)].
  - exists l, []. split_and!; try done.
    split_and!; [done | done | apply not_elem_of_nil..].
  - rewrite !elem_of_app, !elem_of_cons in Hlf, Hn.
    exists k, (stored_value (trim_left r)). split_and!; [done | | ].
    + split_and!; tauto.
    + destruct (trim_split r) as (ws & Hr & _ & Hv).
      apply stored_value_shape; [done | |].
      * intros Hin. apply Hlf. right. right. rewrite Hr. apply elem_of_app. by right.
      * intros Hin. apply Hn. right. right. rewrite Hr. apply elem_of_app. by right.
Qed.

Lemma listing_shape s :
  NUL ∉ s →
  ∃ kvs, listing s = flatten_pairs kvs ∧
         Forall (λ kv, attribute_key kv.1 ∧ attribute_value kv.2) kvs.
Proof.
  intros Hn. unfold listing.
  assert (Hls : Forall (λ l, (LF ∉ l) ∧ (NUL ∉ l)) (upto_blank (lines s))).
  { apply Forall_forall. intros l Hl%upto_blank_elem%lines_elem.
    destruct Hl as [H1 H2]. split; [done|]. intros Hin. by apply Hn, H2. }
  induction Hls as [|l ls [Hlf Hnl] _ (kvs & E & Hkvs)].
  - by exists [].
  - destruct (line_pair_shape l Hlf Hnl) as (k & v & Hkv & Hk & Hv).
    exists ((k, v) :: kvs). simpl. rewrite Hkv, E. split; [done|].
    by constructor.
Qed.

(** X2.  Every list that [do_tune2fs_l] returns is a sequence of pairs:
    its length is even, no key holds a colon, a newline or a NUL, and no
    value starts with whitespace, is one of the three spellings of none,
    or holds a newline or a NUL. *)
Theorem tune2fs_l_returns_pairs w device ret :
  do_tune2fs_l w device = Ok ret →
  ∃ kvs, ret = flatten_pairs kvs ∧
         Forall (λ kv, attribute_key kv.1 ∧ attribute_value kv.2) kvs.
Proof.
  set (c := w_command w ["/sbin/tune2fs"; "-l"; device]%string).
  destruct (decide (cmd_r c = (-1)%Z)) as [Hr|Hr].
  - unfold do_tune2fs_l. fold c. apply Z.eqb_eq in Hr. by rewrite Hr.
  - rewrite do_tune2fs_l_run by done. fold c.
    destruct (c_string_view (cmd_out c)) as (junk & _ & Hn).
    case_bool_decide.
    + destruct (first_split LF (before NUL (cmd_out c)))
        as [(_ & -> & _) | (k & r & Hs & _ & -> & _)]; [done|].
      intros [= <-]. apply listing_shape.
      intros Hin. apply Hn. rewrite Hs. apply elem_of_app. right. by right.
    + intros [= <-]. by apply listing_shape.
Qed.

Lemma listing_unlines_last ls l :
  Forall text_line ls → text_line l →
  listing (unlines ls ++ l) = flat_map line_pair (ls ++ [l]).
Proof.
  intros Hls (Hne & Hlf & _). induction Hls as [|l0 ls (Hne0 & Hlf0 & _) _ IH].
  - simpl. rewrite listing_last by done. destruct l; [done|]. simpl.
    by rewrite app_nil_r.
  - unfold unlines in *. simpl. rewrite <-!app_assoc. simpl.
    by rewrite listing_line, IH.
Qed.

(** X3.  A last line without its newline is listed like the others:
    [strchrnul] stops at the NUL that ends the output. *)
Theorem tune2fs_l_last_line_unterminated w device banner ls l :
  let c := w_command w ["/sbin/tune2fs"; "-l"; device]%string in
  cmd_r c ≠ (-1)%Z →
  LF ∉ banner → NUL ∉ banner → Forall text_line ls → text_line l →
  cmd_out c = lit "tune2fs " ++ banner ++ LF :: unlines ls ++ l →
  do_tune2fs_l w device = Ok (flat_map line_pair (ls ++ [l])).
Proof.
  intros c Hr Hlf Hnb Hls Hl Hout.
  rewrite (tune2fs_l_banner_body w device banner (unlines ls ++ l)); try done.
  - by rewrite listing_unlines_last.
  - rewrite elem_of_app. intros [Hin|Hin].
    + by apply unlines_no_nul in Hin.
    + by apply Hl in Hin.
Qed.

Lemma render_line_text k pad v :
  attribute_key k → padding pad → attribute_value v →
  text_line (render_line (k, pad, v)) ∧
  line_pair (render_line (k, pad, v)) = [k; v].
Proof.
  intros (Hkc & Hkl & Hkn) (Hp & Hpl) (Hvs & Hvn & Hvl & Hvz). simpl. split.
  - split_and!.
    + by destruct k.
    + rewrite !elem_of_app, !elem_of_cons, elem_of_app. intros [?|[?|[?|?]]]; done.
    + rewrite !elem_of_app, !elem_of_cons, elem_of_app. intros [?|[?|[?|?]]]; try done.
      by apply space_not_nul in Hp.
  - rewrite line_pair_colon by done. unfold stored_value. by rewrite Hvn.
Qed.

Lemma render_rows rows :
  Forall (λ row, attribute_key row.1.1 ∧ padding row.1.2 ∧ attribute_value row.2)
         rows →
  Forall text_line (map render_line rows) ∧
  flat_map line_pair (map render_line rows)
  = flatten_pairs (map (λ row, (row.1.1, row.2)) rows).
Proof.
  induction 1 as [|[[k pad] v] rows (Hk & Hp & Hv) _ [IH1 IH2]]; [done|].
  destruct (render_line_text k pad v Hk Hp Hv) as [Ht Hl].
  split; [by constructor|].
  change (flat_map line_pair (map render_line ((k, pad, v) :: rows)))
    with (line_pair (render_line (k, pad, v))
          ++ flat_map line_pair (map render_line rows)).
  by rewrite Hl, IH2.
Qed.

(** X4.  Round trip: print keys and values as [tune2fs -l] does, one
    [key:], padding and value per line behind a banner line, and
    [do_tune2fs_l] returns exactly those keys and values, in order. *)
Theorem tune2fs_l_round_trip w device banner rows :
  let c := w_command w ["/sbin/tune2fs"; "-l"; device]%string in
  cmd_r c ≠ (-1)%Z →
  LF ∉ banner → NUL ∉ banner →
  Forall (λ row, attribute_key row.1.1 ∧ padding row.1.2 ∧ attribute_value row.2)
         rows →
  cmd_out c = lit "tune2fs " ++ banner ++ LF :: unlines (map render_line rows) →
  do_tune2fs_l w device = Ok (flatten_pairs (map (λ row, (row.1.1, row.2)) rows)).
Proof.
  intros c Hr Hlf Hnb Hrows Hout.
  destruct (render_rows rows Hrows) as [Ht Hl].
  rewrite (tune2fs_l_banner_body w device banner _ Hr Hlf Hnb
             (unlines_no_nul _ Ht) Hout).
  by rewrite listing_unlines, Hl.
Qed.

End list_attributes_more.

(** ** Get UUID, as a function of the output *)

Section get_uuid_more.
Implicit Types (w : world) (device : string) (s pre ws rest run u : cstring).

Lemma uuid_run_split s :
  ∃ r, s = uuid_run s ++ r ∧ Forall (λ x, is_uuid_char x = true) (uuid_run s) ∧
       match r with [] => True | y :: _ => is_uuid_char y = false end.
Proof.
  induction s as [|x s (r & Hs & Hrun & Hr)]; simpl.
  - by exists [].
  - destruct (is_uuid_char x) eqn:Hx.
    + exists r. split_and!; [simpl; congruence | by constructor | done].
    + exists (x :: s). by split_and!.
Qed.

Lemma uuid_run_app run y r :
  Forall (λ x, is_uuid_char x = true) run → is_uuid_char y = false →
  uuid_run (run ++ y :: r) = run.
Proof.
  intros Hrun Hy. induction Hrun as [|x run Hx _ IH]; simpl.
  - by rewrite Hy.
  - by rewrite Hx, IH.
Qed.

Lemma uuid_char_plain x : is_uuid_char x = true → c_isspace x = false.
Proof.
  destruct x as [[] [] [] [] [] [] [] []]; vm_compute; congruence.
Qed.

Lemma find_sub_le n s k : find_sub n s = Some k → k ≤ length s.
Proof.
  revert k. induction s as [|x s IH]; intros k; simpl.
  - case_bool_decide; [|done]. intros [= <-]. lia.
  - case_bool_decide; [intros [= <-]; lia|].
    destruct (find_sub n s) as [k'|]; [|done]. intros [= <-].
    specialize (IH k' eq_refl). lia.
Qed.

Lemma find_sub_cut n s k :
  find_sub n s = Some k → ∃ post, s = take k s ++ n ++ post ∧ length (take k s) = k.
Proof.
  intros Hk. destruct (find_sub_first_at _ _ _ Hk) as [[post Hs] _].
  exists post. split; [done|].
  rewrite length_take. apply Nat.min_l. by eapply find_sub_le.
Qed.

Lemma do_get_e2uuid_run w device :
  let c := w_command w ["/sbin/tune2fs"; "-l"; device]%string in
  cmd_r c ≠ (-1)%Z →
  do_get_e2uuid w device = uuid_of (before NUL (cmd_out c)).
Proof.
  intros c Hr. apply Z.eqb_neq in Hr. unfold do_get_e2uuid, uuid_of. fold c.
  rewrite Hr. destruct (c_string_view (cmd_out c)) as (junk & Hm & Hn).
  set (s := before NUL (cmd_out c)) in *. set (m := cmd_out c ++ [NUL]) in *.
  assert (H0 : drop 0 m = s ++ NUL :: junk) by done.
  unfold strstr. rewrite (cstr_view m 0 s junk) by done.
  destruct (find_sub (lit uuid_marker) s) as [k|] eqn:Ek; [|done]. simpl.
  destruct (find_sub_cut _ _ _ Ek) as (post & Hs & Hk).
  set (pre := take k s) in *.
  assert (Hpost : drop (k + 17) s = post).
  { rewrite Hs at 1. rewrite app_assoc. apply drop_app_length'.
    rewrite length_app, Hk. done. }
  rewrite Hpost.
  assert (H1 : drop (k + 17) m = post ++ NUL :: junk).
  { rewrite Hs in H0. rewrite <-!app_assoc in H0.
    apply drop_view_app, (drop_view_app _ _ (lit uuid_marker)) in H0.
    rewrite Hk in H0. exact H0. }
  destruct (trim_split post) as (ws & Hp & Hws & Hrest).
  set (rest := trim_left post) in *.
  assert (Hnrest : NUL ∉ rest).
  { intros Hin. apply Hn. rewrite Hs, Hp. rewrite !elem_of_app. tauto. }
  rewrite Hp in H1. rewrite <-app_assoc in H1.
  assert (Hskip : skip_while c_isspace m (k + 17) = k + 17 + length ws).
  { destruct rest as [|x rest']; simpl in H1.
    - apply (skip_while_view _ _ _ _ _ _ H1); [done | by apply space_not_nul | done].
    - apply (skip_while_view _ _ _ _ _ _ H1); [done | by apply space_not_nul |].
      simpl in Hrest. rewrite Hrest. apply orb_true_r. }
  rewrite Hskip. apply drop_view_app in H1.
  set (p := k + 17 + length ws) in *.
  destruct rest as [|x rest'] eqn:Erest.
  { by rewrite (load_view _ _ _ _ H1). }
  rewrite <-Erest in *. rewrite bool_decide_eq_false_2 by (by rewrite Erest).
  assert (is_nul (load m p) = false) as ->.
  { rewrite Erest in H1. simpl in H1. rewrite (load_view _ _ _ _ H1).
    apply (is_nul_false x rest'). by rewrite <-Erest. }
  destruct (uuid_run_split rest) as (r & Hsplit & Hrun & Hr2).
  set (run := uuid_run rest) in *.
  assert (Hnrun : NUL ∉ run) by (by apply uuid_run_no_nul).
  rewrite Hsplit in H1. rewrite <-app_assoc in H1.
  destruct r as [|y r'].
  - simpl in H1. rewrite app_nil_r in Hsplit.
    rewrite (skip_while_view _ _ _ _ _ _ H1) by done.
    rewrite (load_view_app _ _ _ _ _ H1). simpl.
    by rewrite bool_decide_eq_true_2.
  - simpl in H1.
    assert (Hny : is_nul y = false).
    { apply Ascii.eqb_neq. intros ->. apply Hnrest. rewrite Hsplit.
      apply elem_of_app. right. left. }
    rewrite (skip_while_view _ _ _ _ _ _ H1) by (done || by rewrite Hny, Hr2).
    rewrite (load_view_app _ _ _ _ _ H1), Hny.
    rewrite bool_decide_eq_false_2.
    + apply (store_view _ _ _ _ NUL) in H1. by rewrite (cstr_view _ _ _ _ H1).
    + intros E. apply (f_equal length) in Hsplit.
      rewrite <-E, length_app in Hsplit. simpl in Hsplit. lia.
Qed.


Lemma find_sub_skip x n pre r :
  (x ∉ pre) →
  find_sub (x :: n) (pre ++ r) = (λ k, length pre + k) <$> find_sub (x :: n) r.
Proof.
  induction pre as [|y pre IH]; intros Hx.
  - simpl. by destruct (find_sub (x :: n) r).
  - apply not_elem_of_cons in Hx as [Hxy Hx]. simpl.
    rewrite bool_decide_eq_false_2.
    + rewrite IH by done. by destruct (find_sub (x :: n) r).
    + intros [k [= ? _]]. done.
Qed.

Lemma prefix_before {A} (c : A) (n l r : list A) :
  n `prefix_of` l ++ c :: r → (c ∉ n) → n `prefix_of` l.
Proof.
  revert n. induction l as [|b l IH]; intros [|a n] Hp Hc;
    try apply prefix_nil.
  - destruct Hp as [k [= -> _]]. exfalso. apply Hc. left.
  - destruct Hp as [k [= -> Hk]]. apply prefix_cons, IH.
    + by exists k.
    + intros Hin. apply Hc. by right.
Qed.

Lemma find_marker_lines n ls r :
  (LF ∉ n) → Forall (λ l, (LF ∉ l) ∧ ¬ n `prefix_of` l) ls →
  find_sub (LF :: n) (LF :: unlines ls ++ n ++ r) = Some (length (unlines ls)).
Proof.
  intros Hn Hls. induction Hls as [|l ls [Hlf Hl] _ IH].
  - simpl. rewrite bool_decide_eq_true_2; [done|]. apply prefix_cons.
    by exists r.
  - change (unlines (l :: ls)) with ((l ++ [LF]) ++ unlines ls).
    rewrite <-!app_assoc. simpl. rewrite bool_decide_eq_false_2.
    + rewrite find_sub_skip by done. rewrite IH. simpl.
      rewrite !length_app. simpl. f_equal. lia.
    + intros Hp%prefix_cons_inv_2. apply Hl. by eapply prefix_before.
Qed.

(** X6.  The two readers of [tune2fs -l] agree.  On an output with a
    banner line and a [Filesystem UUID:] line whose value is a non-empty
    run of hexadecimal digits and hyphens, no earlier line starting with
    that label, [do_get_e2uuid] returns the value that [do_tune2fs_l]
    lists under the key [Filesystem UUID]. *)
Theorem get_e2uuid_agrees_with_tune2fs_l w device banner ls1 ws uuid ls2 :
  let c := w_command w ["/sbin/tune2fs"; "-l"; device]%string in
  let line := lit uuid_label ++ ":"%char :: ws ++ uuid in
  cmd_r c ≠ (-1)%Z →
  (LF ∉ banner) → (NUL ∉ banner) →
  Forall text_line ls1 → Forall text_line ls2 →
  Forall (λ l, ¬ lit "Filesystem UUID:" `prefix_of` l) ls1 →
  padding ws → uuid ≠ [] → Forall (λ x, is_uuid_char x = true) uuid →
  cmd_out c = lit "tune2fs " ++ banner ++ LF :: unlines (ls1 ++ line :: ls2) →
  do_get_e2uuid w device = Ok uuid ∧
  do_tune2fs_l w device =
    Ok (flat_map line_pair ls1 ++ [lit uuid_label; uuid] ++ flat_map line_pair ls2).
Proof.
  intros c line Hr Hlf Hnb Hls1 Hls2 Hother [Hws Hwl] Hne Huuid Hout.
  assert (Hlu : LF ∉ uuid).
  { intros Hin. rewrite Forall_forall in Huuid. by apply Huuid in Hin. }
  assert (Hnu : NUL ∉ uuid) by (by apply uuid_run_no_nul).
  assert (Hsu : starts_text uuid).
  { destruct uuid as [|x u]; [done|]. simpl. apply uuid_char_plain.
    by inversion Huuid. }
  assert (Hll : LF ∉ lit uuid_label) by (by apply (bool_decide_unpack _)).
  assert (Hnl : NUL ∉ lit uuid_label) by (by apply (bool_decide_unpack _)).
  assert (Hline : text_line line).
  { unfold line. split_and!.
    - done.
    - rewrite elem_of_app, elem_of_cons, elem_of_app.
      intros [?|[?|[?|?]]]; done.
    - rewrite elem_of_app, elem_of_cons, elem_of_app.
      intros [?|[?|[Hin|?]]]; try done.
      by apply space_not_nul in Hin. }
  assert (Hls : Forall text_line (ls1 ++ line :: ls2)).
  { apply Forall_app. split; [done|]. by constructor. }
  assert (Hbody : NUL ∉ unlines (ls1 ++ line :: ls2)) by (by apply unlines_no_nul).
  split.
  - rewrite do_get_e2uuid_run by done. fold c.
    assert (Hn : NUL ∉ cmd_out c).
    { rewrite Hout, !elem_of_app, elem_of_cons. intros [Hin|[?|[?|?]]]; try done.
      by apply banner_literal_plain in Hin. }
    rewrite before_all by done. unfold uuid_of.
    set (n := lit "Filesystem UUID:").
    set (tl := ws ++ uuid ++ LF :: unlines ls2).
    assert (Hshape : cmd_out c
              = (lit "tune2fs " ++ banner) ++ LF :: unlines ls1 ++ n ++ tl).
    { rewrite Hout. unfold unlines. rewrite map_app, concat_app. simpl.
      unfold line, tl. by rewrite <-!app_assoc. }
    assert (Hfind : find_sub (lit uuid_marker) (cmd_out c)
              = Some (length (lit "tune2fs " ++ banner) + length (unlines ls1))).
    { rewrite Hshape. change (lit uuid_marker) with (LF :: n).
      rewrite find_sub_skip.
      - rewrite find_marker_lines; [done | by apply (bool_decide_unpack _) |].
        apply Forall_forall. intros l Hl. rewrite Forall_forall in Hls1, Hother.
        split; [by apply Hls1 | by apply Hother].
      - rewrite elem_of_app. intros [Hin|?]; [|done].
        by apply banner_literal_plain in Hin. }
    rewrite Hfind. cbv beta iota zeta.
    assert (Hdrop : drop (length (lit "tune2fs " ++ banner) + length (unlines ls1) + 17)
                      (cmd_out c) = tl).
    { rewrite Hshape.
      replace ((lit "tune2fs " ++ banner) ++ LF :: unlines ls1 ++ n ++ tl)
        with (((lit "tune2fs " ++ banner) ++ LF :: unlines ls1 ++ n) ++ tl)
        by (rewrite <-app_assoc; simpl; by rewrite <-!app_assoc).
      apply drop_app_length'. rewrite !length_app. simpl. rewrite !length_app.
      simpl. lia. }
    rewrite Hdrop. unfold tl.
    rewrite trim_left_app by (done || by destruct uuid).
    rewrite uuid_run_app by done.
    rewrite bool_decide_eq_false_2 by (by destruct uuid).
    rewrite bool_decide_eq_false_2; [done|].
    intros E. apply (f_equal length) in E. rewrite length_app in E. simpl in E. lia.
  - rewrite (tune2fs_l_banner_body w device banner _ Hr Hlf Hnb Hbody Hout).
    rewrite listing_unlines by done. rewrite flat_map_app_list.
    change (flat_map line_pair (line :: ls2))
      with (line_pair line ++ flat_map line_pair ls2).
    unfold line. rewrite line_pair_colon; [| by apply (bool_decide_unpack _) | done..].
    unfold stored_value. replace (none_spelling uuid) with false; [done|].
    symmetry. apply bool_decide_eq_false_2.
    intros [E | [E | E]]; rewrite E in Huuid; by inversion Huuid.
Qed.

End get_uuid_more.

(** ** Get label: [do_get_e2label] *)

Section label.
Local Open Scope Z_scope.

Lemma int_of_size_small n : Z.of_nat n < 2 ^ 31 → int_of_size n = Z.of_nat n.
Proof.
  intros H. unfold int_of_size.
  rewrite Z.mod_small; lia.
Qed.

(** X7.  [do_get_e2label] removes one newline from the end of the
    output of [e2label], and nothing else: an output that ends in a
    newline is returned without it (a newline before it stays), any other
    output is returned whole. *)
Theorem get_e2label_strips_one_newline w device :
  let c := w_command w ["/sbin/e2label"; device]%string in
  cmd_r c ≠ -1 → NUL ∉ cmd_out c → Z.of_nat (length (cmd_out c)) < 2 ^ 31 →
  (∀ label, cmd_out c = label ++ [LF] → do_get_e2label w device = Ok label) ∧
  (last (cmd_out c) ≠ Some LF → do_get_e2label w device = Ok (cmd_out c)).
Proof.
  intros c Hr Hn Hlen. apply Z.eqb_neq in Hr.
  unfold do_get_e2label. fold c. rewrite Hr.
  revert Hn Hlen. generalize (cmd_out c). intros out Hn Hlen.
  assert (H0 : drop 0 (out ++ [NUL]) = out ++ [NUL]) by done.
  rewrite (strlen_view _ 0 out []) by done.
  rewrite int_of_size_small by done.
  assert (Hcut : ∀ s x, out = s ++ [x] →
            Z.to_nat (Z.of_nat (length out) - 1) = length s ∧
            (0 <? Z.of_nat (length out)) = true ∧
            load (out ++ [NUL]) (length s) = x ∧ NUL ∉ s).
  { intros s x ->. rewrite length_app. simpl. split_and!.
    - lia.
    - apply Z.ltb_lt. lia.
    - refine (load_view_app _ 0 s x [NUL] _). by rewrite <-app_assoc.
    - intros Hin. apply Hn, elem_of_app. by left. }
  split.
  - intros label Hout. destruct (Hcut label LF Hout) as (-> & -> & -> & Hnl).
    rewrite Ascii.eqb_refl. simpl. f_equal.
    apply (cstr_view _ _ _ [NUL]); [|done].
    refine (store_view _ 0 label LF NUL [NUL] _). rewrite Hout. by rewrite <-app_assoc.
  - intros Hlast. destruct (decide (out = [])) as [->|Hne].
    + done.
    + destruct (exists_last Hne) as (s & x & Hout).
      destruct (Hcut s x Hout) as (-> & -> & -> & Hnl).
      rewrite Hout, last_snoc in Hlast.
      replace (Ascii.eqb x LF) with false
        by (symmetry; apply Ascii.eqb_neq; congruence).
      simpl. f_equal. by apply (cstr_view _ _ _ []).
Qed.

End label.

(** ** The operations that run one command *)

Section wrappers.
Implicit Types (w : world) (device label uuid fstype jref : string) (blocksize : Z).

Lemma run_tool_replies tag argv w : replied_as_returned (run_tool tag argv w).
Proof.
  unfold run_tool, replied_as_returned.
  destruct (cmd_r _ =? -1)%Z; simpl; [right | left]; split_and!; done || lia.
Qed.


(** X8.  The operations that run a single tool keep the discipline of
    the daemon: set label, set UUID, resize and check return [0] having
    run their command and replied with no error, or [-1] having replied
    with exactly one error; none runs more than one command. *)
Theorem ext2_tools_reply_once w :
  (∀ device label, replied_as_returned (do_set_e2label w device label)) ∧
  (∀ device uuid, replied_as_returned (do_set_e2uuid w device uuid)) ∧
  (∀ device, replied_as_returned (do_resize2fs w device)) ∧
  (∀ device, replied_as_returned (do_e2fsck_f w device)).
Proof. split_and!; intros; apply run_tool_replies. Qed.

(** X9.  So do the three operations that make a journal device, and
    the command of the labelled and of the UUID variant is that of
    [do_mke2journal] with [-L label] or [-U uuid] put before the
    device. *)
Theorem mke2journal_reply_once w blocksize device :
  replied_as_returned (do_mke2journal w blocksize device) ∧
  (∀ label, replied_as_returned (do_mke2journal_L w blocksize label device)) ∧
  (∀ uuid, replied_as_returned (do_mke2journal_U w blocksize uuid device)) ∧
  ∃ args, commands_run (snd (do_mke2journal w blocksize device))
          = [args ++ [device]] ∧
    (∀ label, commands_run (snd (do_mke2journal_L w blocksize label device))
              = [args ++ ["-L"; label; device]%string]) ∧
    (∀ uuid, commands_run (snd (do_mke2journal_U w blocksize uuid device))
             = [args ++ ["-U"; uuid; device]%string]).
Proof.
  split_and!; try (intros; apply run_tool_replies).
  exists ["/sbin/mke2fs"; "-O"; "journal_dev"; "-b"; string_of_int blocksize]%string.
  unfold do_mke2journal, do_mke2journal_L, do_mke2journal_U, run_tool.
  split_and!; intros; by destruct (cmd_r _ =? -1)%Z.
Qed.


(** X11.  [do_mke2fs_JL] and [do_mke2fs_JU] are [do_mke2fs_J] on the
    journal [LABEL=label] and [UUID=uuid]: same return code, same command
    run. *)
Theorem mke2fs_journal_variants w fstype blocksize device ref :
  fst (do_mke2fs_JL w fstype blocksize device ref)
  = fst (do_mke2fs_J w fstype blocksize device ("LABEL=" +:+ ref)) ∧
  commands_run (snd (do_mke2fs_JL w fstype blocksize device ref))
  = commands_run (snd (do_mke2fs_J w fstype blocksize device ("LABEL=" +:+ ref))) ∧
  fst (do_mke2fs_JU w fstype blocksize device ref)
  = fst (do_mke2fs_J w fstype blocksize device ("UUID=" +:+ ref)) ∧
  commands_run (snd (do_mke2fs_JU w fstype blocksize device ref))
  = commands_run (snd (do_mke2fs_J w fstype blocksize device ("UUID=" +:+ ref))).
Proof.
  unfold do_mke2fs_JL, do_mke2fs_JU, do_mke2fs_J, mke2fs_with_journal, get_mke2fs.
  change ("device=" +:+ "LABEL=" +:+ ref) with ("device=LABEL=" +:+ ref).
  change ("device=" +:+ "UUID=" +:+ ref) with ("device=UUID=" +:+ ref).
  destruct (first_accessible w progs) as [prog|]; [|done].
  split_and!; by destruct (cmd_r _ =? -1)%Z.
Qed.
End wrappers.

(** ** Return values and replies of [do_mkfs_opts] *)

Section mkfs_more.
Implicit Types (w : world) (stack : nat → option string)
  (optargs_bitmask blocksize : Z) (fstype device : string).
Local Open Scope Z_scope.

Ltac run_mkfs :=
  cbv [call do_mkfs_opts do_mkfs do_mkfs_b entry mbind M_bind bind ret mret
       M_ret when push get_i log reply_with_error blockdev_getss int_div
       commandv return_ abort argv i trace MAX_ARGS Nat.ltb Nat.leb seq map
       insert list_insert argv_strings app fst snd
       negb orb andb commands_run head mkfs_accepts cluster_ok
       blocksize_given mkfs_args blocksize_args is_fat
       errors_replied sector_query_failed sector_size_zero take].

Ltac streq_compute :=
  repeat match goal with
  | |- context [STREQ ?a ?b] =>
      let v := eval vm_compute in (STREQ a b) in change (STREQ a b) with v
  end.

Ltac fstype_cases fstype :=
  repeat match goal with
  | |- context [STREQ fstype ?b] =>
      destruct (String.eqb_spec fstype b) as [->|?];
      [ | replace (STREQ fstype b) with false
            by (symmetry; by apply String.eqb_neq) ]
  end;
  streq_compute.

Ltac branch_atom :=
  match goal with
  | |- context [Z.eqb ?a ?b] => destruct (Z.eqb a b) eqn:?
  | |- context [Z.leb ?a ?b] => destruct (Z.leb a b) eqn:?
  | |- context [Z.ltb ?a ?b] => destruct (Z.ltb a b) eqn:?
  | |- context [is_power_of_2 ?a] => destruct (is_power_of_2 a) eqn:?
  end; run_mkfs.

Ltac arith :=
  repeat match goal with
  | H : (_ =? _) = true |- _ => apply Z.eqb_eq in H
  | H : (_ =? _) = false |- _ => apply Z.eqb_neq in H
  | H : (_ <=? _) = true |- _ => apply Z.leb_le in H
  | H : (_ <=? _) = false |- _ => apply Z.leb_gt in H
  | H : (_ <? _) = true |- _ => apply Z.ltb_lt in H
  | H : (_ <? _) = false |- _ => apply Z.ltb_ge in H
  end;
  unfold INT_MIN in *.

Ltac unfold_all :=
  unfold call, do_mkfs, do_mkfs_opts, sector_query_failed, sector_size_zero,
    mkfs_accepts, cluster_ok, blocksize_given, mkfs_args, blocksize_args, is_fat.

(** X12.  What [do_mkfs_opts] returns: when the request passes its
    checks, [0] or [-1] as the [mkfs] command succeeds or fails; when it
    does not, [-1], but for a sector size of zero, where the division is
    undefined. *)
Theorem mkfs_opts_return_value w stack optargs_bitmask fstype device blocksize :
  let r := call (do_mkfs_opts w optargs_bitmask fstype device blocksize) stack in
  let args := mkfs_args w (blocksize_given optargs_bitmask) fstype device blocksize in
  fst r =
    if mkfs_accepts w optargs_bitmask fstype device blocksize then
      Return (if cmd_r (w_command w args) =? -1 then -1 else 0)
    else if sector_size_zero w optargs_bitmask fstype device blocksize then Undefined
    else Return (-1).
Proof.
  intros r args. subst r args. unfold_all.
  fstype_cases fstype; run_mkfs; repeat branch_atom; try done.
  all: arith; lia.
Qed.

(** X13.  [do_mkfs_opts] replies with no error when it returns [0], and
    with exactly one when it returns [-1], except when the failure is
    that of [do_blockdev_getss], which has replied itself. *)
Theorem mkfs_opts_replies_once w stack optargs_bitmask fstype device blocksize :
  let r := call (do_mkfs_opts w optargs_bitmask fstype device blocksize) stack in
  (fst r = Return 0 → errors_replied (trace (snd r)) = 0%nat) ∧
  (fst r = Return (-1) →
   errors_replied (trace (snd r)) =
     if sector_query_failed w optargs_bitmask fstype device blocksize
     then 0%nat else 1%nat).
Proof.
  intros r. subst r. unfold_all.
  fstype_cases fstype; run_mkfs; repeat branch_atom; by split.
Qed.

(** X14.  [argv] is an uninitialised array: what it held at the call
    changes neither the return value, nor the events, nor the cursor, nor
    the slots below the cursor.  No slot is read before it is written. *)
Theorem mkfs_opts_ignores_stack w stack1 stack2 optargs_bitmask fstype device blocksize :
  let r1 := call (do_mkfs_opts w optargs_bitmask fstype device blocksize) stack1 in
  let r2 := call (do_mkfs_opts w optargs_bitmask fstype device blocksize) stack2 in
  fst r1 = fst r2 ∧ trace (snd r1) = trace (snd r2) ∧ i (snd r1) = i (snd r2) ∧
  take (i (snd r1)) (argv (snd r1)) = take (i (snd r2)) (argv (snd r2)).
Proof.
  intros r1 r2. subst r1 r2. unfold_all.
  fstype_cases fstype; run_mkfs; repeat branch_atom; done.
Qed.

(** X15.  With the block-size flag clear, the block size is ignored:
    [do_mkfs_opts] behaves as [do_mkfs], which validates nothing, asks
    for no sector size, and runs [mkfs] without a block-size argument,
    replying with [fstype: device: stderr] when it fails. *)
Theorem mkfs_without_blocksize w stack optargs_bitmask fstype device blocksize :
  let args := mkfs_args w false fstype device blocksize in
  let c := w_command w args in
  Z.land optargs_bitmask GUESTFS_MKFS_OPTS_BLOCKSIZE_BITMASK = 0 →
  call (do_mkfs_opts w optargs_bitmask fstype device blocksize) stack
  = call (do_mkfs w fstype device) stack ∧
  fst (call (do_mkfs w fstype device) stack)
  = Return (if cmd_r c =? -1 then -1 else 0) ∧
  trace (snd (call (do_mkfs w fstype device) stack))
  = EvCommand args ::
    (if cmd_r c =? -1
     then [EvReplyError (fstype +:+ ": " +:+ device +:+ ": " +:+ cmd_err c)]
     else []).
Proof.
  intros args c Hflag. apply Z.eqb_eq in Hflag. subst args c. unfold_all.
  rewrite Hflag. change (Z.land 0 GUESTFS_MKFS_OPTS_BLOCKSIZE_BITMASK =? 0) with true.
  fstype_cases fstype; run_mkfs; repeat branch_atom; done.
Qed.

Lemma quot_pow2 a b :
  0 ≤ a → 0 ≤ b →
  Z.quot (2 ^ a) (2 ^ b) = if b <=? a then 2 ^ (a - b) else 0.
Proof.
  intros Ha Hb. destruct (b <=? a) eqn:E.
  - apply Z.leb_le in E.
    replace (2 ^ a) with (2 ^ (a - b) * 2 ^ b)
      by (rewrite <-Z.pow_add_r by lia; f_equal; lia).
    apply Z.quot_mul. pose proof (Z.pow_pos_nonneg 2 b). lia.
  - apply Z.leb_gt in E. apply Z.quot_small. split.
    + apply Z.pow_nonneg. lia.
    + apply Z.pow_lt_mono_r; lia.
Qed.

(** X16.  For the FAT family with a block size [2^a] on sectors of
    [2^b] bytes, [mkfs] is run exactly when [b ≤ a ≤ b + 7], with
    [-s 2^(a-b)]: the cluster is 1 to 128 sectors, a power of two. *)
Theorem mkfs_fat_sectors_power_of_2 w stack optargs_bitmask fstype device a b :
  let r := call (do_mkfs_opts w optargs_bitmask fstype device (2 ^ a)) stack in
  Z.land optargs_bitmask GUESTFS_MKFS_OPTS_BLOCKSIZE_BITMASK ≠ 0 →
  fstype = "vfat"%string ∨ fstype = "msdos"%string →
  0 ≤ a → 0 ≤ b → w_blockdev_getss w device = 2 ^ b →
  commands_run (trace (snd r)) =
    if (b <=? a) && (a - b <=? 7)
    then [["mkfs"; "-t"; fstype; "-s"; string_of_int (2 ^ (a - b)); device]%string]
    else [].
Proof.
  intros r Hflag Hfat Ha Hb Hss. subst r.
  assert (Hpow : is_power_of_2 (2 ^ a) = true).
  { unfold is_power_of_2. rewrite Z.log2_pow2, Z.eqb_refl by done.
    pose proof (Z.pow_pos_nonneg 2 a). rewrite andb_true_r. apply Z.ltb_lt. lia. }
  assert (Hpos : 0 < 2 ^ a) by (apply Z.pow_pos_nonneg; lia).
  assert (Hsp : 0 < 2 ^ b) by (apply Z.pow_pos_nonneg; lia).
  pose proof (quot_pow2 a b Ha Hb) as Hq.
  assert (Hrange : (b <=? a) && (a - b <=? 7) = true →
                   1 ≤ 2 ^ (a - b) ≤ 128).
  { intros [H1 H2]%andb_true_iff. apply Z.leb_le in H1, H2. split.
    - pose proof (Z.pow_pos_nonneg 2 (a - b)). lia.
    - change 128 with (2 ^ 7). apply Z.pow_le_mono_r; lia. }
  assert (Hbig : (b <=? a) = true → (a - b <=? 7) = false → 128 < 2 ^ (a - b)).
  { intros H1 H2. apply Z.leb_le in H1. apply Z.leb_gt in H2.
    apply Z.lt_le_trans with (2 ^ 8); [done|]. apply Z.pow_le_mono_r; lia. }
  revert Hq Hrange Hbig. generalize (2 ^ (a - b)). intros q Hq Hrange Hbig.
  revert Hpow Hpos Hq. generalize (2 ^ a). intros bs Hpow Hpos Hq.
  rewrite <-Hss in Hq, Hsp. clear Hss.
  unfold call, do_mkfs_opts. rewrite Hpow.
  destruct Hfat as [-> | ->]; streq_compute; run_mkfs;
    rewrite ?Hq; destruct (b <=? a) eqn:E1; destruct (a - b <=? 7) eqn:E2;
    run_mkfs; repeat branch_atom; try done.
  all: arith; try specialize (Hrange eq_refl); try specialize (Hbig eq_refl eq_refl); lia.
Qed.

End mkfs_more.

(** ** The further properties at work on concrete runs *)

Section more_runs.
Local Open Scope Z_scope.

Ltac concrete := by (apply (bool_decide_unpack _) || lia || discriminate).
Ltac given H := split; [exact H|].
Ltac shape :=
  repeat (apply Forall_cons_2 || apply Forall_nil_2);
  cbv beta; simpl; unfold attribute_key, attribute_value, padding;
  split_and!; first [done | concrete | by repeat constructor].

Lemma tune2fs_l_returns_pairs_witness :
  let out := lit "tune2fs 1.41.9 (22-Aug-2009)" ++ LF
             :: lit "Filesystem volume name:   <none>" ++ LF
             :: lit "Journal backup" ++ [LF] in
  let w := world_with_output out in
  let ret := map lit ["Filesystem volume name"; ""; "Journal backup"; ""]%string in
  do_tune2fs_l w "/dev/sda1" = Ok ret ∧
  ∃ kvs, ret = flatten_pairs kvs ∧
         Forall (λ kv, attribute_key kv.1 ∧ attribute_value kv.2) kvs.
Proof.
  intros out w ret.
  assert (H : do_tune2fs_l w "/dev/sda1" = Ok ret) by (by vm_compute).
  given H.
  exact (tune2fs_l_returns_pairs w "/dev/sda1" ret H).
Defined.

Lemma tune2fs_l_last_line_unterminated_witness :
  let banner := lit "1.41.9 (22-Aug-2009)" in
  let ls := map lit ["Filesystem volume name:   root"]%string in
  let l := lit "Block size:               4096" in
  let w := world_with_output (lit "tune2fs " ++ banner ++ LF :: unlines ls ++ l) in
  cmd_r (w_command w ["/sbin/tune2fs"; "-l"; "/dev/sda1"]%string) ≠ -1 ∧
  (LF ∉ banner) ∧ (NUL ∉ banner) ∧ Forall text_line ls ∧ text_line l ∧
  do_tune2fs_l w "/dev/sda1"
  = Ok (map lit ["Filesystem volume name"; "root"; "Block size"; "4096"]%string).
Proof.
  intros banner ls l w.
  assert (Hr : cmd_r (w_command w ["/sbin/tune2fs"; "-l"; "/dev/sda1"]%string) ≠ -1)
    by concrete.
  assert (Hlf : LF ∉ banner) by concrete.
  assert (Hn : NUL ∉ banner) by concrete.
  assert (Hls : Forall text_line ls) by (repeat constructor; concrete).
  assert (Hl : text_line l) by (repeat constructor; concrete).
  given Hr. given Hlf. given Hn. given Hls. given Hl.
  exact (tune2fs_l_last_line_unterminated w "/dev/sda1" banner ls l
           Hr Hlf Hn Hls Hl eq_refl).
Defined.

Lemma tune2fs_l_round_trip_witness :
  let banner := lit "1.41.9 (22-Aug-2009)" in
  let rows := [(lit "Filesystem volume name", lit "   ", lit "root");
               (lit "Mount count", [HT], lit "12");
               (lit "Journal backup", [], [])] in
  let w := world_with_output
    (lit "tune2fs " ++ banner ++ LF :: unlines (map render_line rows)) in
  cmd_r (w_command w ["/sbin/tune2fs"; "-l"; "/dev/sda1"]%string) ≠ -1 ∧
  (LF ∉ banner) ∧ (NUL ∉ banner) ∧
  Forall (λ row, attribute_key row.1.1 ∧ padding row.1.2 ∧ attribute_value row.2)
         rows ∧
  do_tune2fs_l w "/dev/sda1"
  = Ok (map lit ["Filesystem volume name"; "root"; "Mount count"; "12";
                 "Journal backup"; ""]%string).
Proof.
  intros banner rows w.
  assert (Hr : cmd_r (w_command w ["/sbin/tune2fs"; "-l"; "/dev/sda1"]%string) ≠ -1)
    by concrete.
  assert (Hlf : LF ∉ banner) by concrete.
  assert (Hn : NUL ∉ banner) by concrete.
  assert (Hrows : Forall (λ row, attribute_key row.1.1 ∧ padding row.1.2
                                 ∧ attribute_value row.2) rows).
  { shape. }
  given Hr. given Hlf. given Hn. given Hrows.
  exact (tune2fs_l_round_trip w "/dev/sda1" banner rows Hr Hlf Hn Hrows eq_refl).
Defined.


Lemma get_e2uuid_agrees_with_tune2fs_l_witness :
  let banner := lit "1.41.9 (22-Aug-2009)" in
  let ls1 := map lit ["Filesystem volume name:   root"]%string in
  let ws := lit "          " in
  let uuid := lit "01234567-89ab-cdef-0123-456789abcdef" in
  let ls2 := map lit ["Block size:               4096"]%string in
  let line := lit uuid_label ++ ":"%char :: ws ++ uuid in
  let w := world_with_output
    (lit "tune2fs " ++ banner ++ LF :: unlines (ls1 ++ line :: ls2)) in
  cmd_r (w_command w ["/sbin/tune2fs"; "-l"; "/dev/sda1"]%string) ≠ -1 ∧
  (LF ∉ banner) ∧ (NUL ∉ banner) ∧
  Forall text_line ls1 ∧ Forall text_line ls2 ∧
  Forall (λ l, ¬ lit "Filesystem UUID:" `prefix_of` l) ls1 ∧
  padding ws ∧ uuid ≠ [] ∧ Forall (λ x, is_uuid_char x = true) uuid ∧
  do_get_e2uuid w "/dev/sda1" = Ok uuid ∧
  do_tune2fs_l w "/dev/sda1"
  = Ok (map lit ["Filesystem volume name"; "root"; "Filesystem UUID";
                 "01234567-89ab-cdef-0123-456789abcdef";
                 "Block size"; "4096"]%string).
Proof.
  intros banner ls1 ws uuid ls2 line w.
  assert (Hr : cmd_r (w_command w ["/sbin/tune2fs"; "-l"; "/dev/sda1"]%string) ≠ -1)
    by concrete.
  assert (Hlf : LF ∉ banner) by concrete.
  assert (Hn : NUL ∉ banner) by concrete.
  assert (Hls1 : Forall text_line ls1) by (repeat constructor; concrete).
  assert (Hls2 : Forall text_line ls2) by (repeat constructor; concrete).
  assert (Hother : Forall (λ l, ¬ lit "Filesystem UUID:" `prefix_of` l) ls1).
  { repeat (apply Forall_cons_2 || apply Forall_nil_2). by intros [k Hk]. }
  assert (Hws : padding ws) by (split; [by repeat constructor | concrete]).
  assert (Hne : uuid ≠ []) by done.
  assert (Huuid : Forall (λ x, is_uuid_char x = true) uuid)
    by (by repeat constructor).
  given Hr. given Hlf. given Hn. given Hls1. given Hls2. given Hother.
  given Hws. given Hne. given Huuid.
  exact (get_e2uuid_agrees_with_tune2fs_l w "/dev/sda1" banner ls1 ws uuid ls2
           Hr Hlf Hn Hls1 Hls2 Hother Hws Hne Huuid eq_refl).
Defined.

Lemma get_e2label_strips_one_newline_witness :
  let w := world_with_output (lit "root" ++ [LF]) in
  let c := w_command w ["/sbin/e2label"; "/dev/sda1"]%string in
  cmd_r c ≠ -1 ∧ (NUL ∉ cmd_out c) ∧ Z.of_nat (length (cmd_out c)) < 2 ^ 31 ∧
  do_get_e2label w "/dev/sda1" = Ok (lit "root").
Proof.
  intros w c.
  assert (Hr : cmd_r c ≠ -1) by concrete.
  assert (Hn : NUL ∉ cmd_out c) by concrete.
  assert (Hlen : Z.of_nat (length (cmd_out c)) < 2 ^ 31) by (by vm_compute).
  given Hr. given Hn. given Hlen.
  exact (proj1 (get_e2label_strips_one_newline w "/dev/sda1" Hr Hn Hlen)
           (lit "root") eq_refl).
Defined.

Lemma mkfs_opts_replies_once_witness :
  let w := broken_appliance "mkfs.ext3: no such device" in
  let r := call (do_mkfs_b w "ext3" 4096 "/dev/sda1") (λ _, None) in
  fst r = Return (-1) ∧ errors_replied (trace (snd r)) = 1%nat.
Proof.
  intros w r. assert (Hr : fst r = Return (-1)) by done. given Hr.
  exact (proj2 (mkfs_opts_replies_once w (λ _, None) _ "ext3" "/dev/sda1" 4096)
           Hr).
Defined.

Lemma mkfs_without_blocksize_witness :
  let w := broken_appliance "mkfs.ext3: no such device" in
  Z.land 2 GUESTFS_MKFS_OPTS_BLOCKSIZE_BITMASK = 0 ∧
  call (do_mkfs_opts w 2 "ext3" "/dev/sda1" 3000) (λ _, None)
  = call (do_mkfs w "ext3" "/dev/sda1") (λ _, None) ∧
  trace (snd (call (do_mkfs w "ext3" "/dev/sda1") (λ _, None)))
  = [EvCommand ["mkfs"; "-t"; "ext3"; "/dev/sda1"]%string;
     EvReplyError "ext3: /dev/sda1: mkfs.ext3: no such device"].
Proof.
  intros w.
  assert (Hflag : Z.land 2 GUESTFS_MKFS_OPTS_BLOCKSIZE_BITMASK = 0) by done.
  given Hflag.
  destruct (mkfs_without_blocksize w (λ _, None) 2 "ext3" "/dev/sda1" 3000 Hflag)
    as (Hsame & _ & Htrace).
  exact (conj Hsame Htrace).
Defined.

Lemma mkfs_fat_sectors_power_of_2_witness :
  let w := world_with_sectors 512 in
  let r := call (do_mkfs_b w "vfat" (2 ^ 13) "/dev/sda1") (λ _, None) in
  Z.land GUESTFS_MKFS_OPTS_BLOCKSIZE_BITMASK GUESTFS_MKFS_OPTS_BLOCKSIZE_BITMASK ≠ 0 ∧
  0 ≤ 13 ∧ 0 ≤ 9 ∧ w_blockdev_getss w "/dev/sda1" = 2 ^ 9 ∧
  commands_run (trace (snd r))
  = [["mkfs"; "-t"; "vfat"; "-s"; "16"; "/dev/sda1"]%string].
Proof.
  intros w r.
  assert (Hflag : Z.land GUESTFS_MKFS_OPTS_BLOCKSIZE_BITMASK
                    GUESTFS_MKFS_OPTS_BLOCKSIZE_BITMASK ≠ 0) by done.
  assert (Ha : 0 ≤ 13) by done.
  assert (Hb : 0 ≤ 9) by done.
  assert (Hss : w_blockdev_getss w "/dev/sda1" = 2 ^ 9) by done.
  given Hflag. given Ha. given Hb. given Hss.
  exact (mkfs_fat_sectors_power_of_2 w (λ _, None) _ "vfat" "/dev/sda1" 13 9
           Hflag (or_introl eq_refl) Ha Hb Hss).
Defined.

End more_runs.
